(** * firewall-ui: the web front end and the firewall abstraction it drives

    A shallow embedding of the TypeScript sources (React pages, the zustand
    authentication store and the axios service layer), with the parts of the
    Python backend that the sources only call modelled from the written
    specification. *)

From Stdlib Require Import ZArith Lia Ascii.
From stdpp Require Import base strings list gmap pretty functions.

Local Open Scope string_scope.
Local Open Scope Z_scope.
Local Open Scope list_scope.
Local Open Scope stdpp_scope.

(** ** JavaScript values, as far as the pages inspect them *)

Module Js.

Inductive value :=
| Undefined
| Null
| Bool (b : bool)
| Num (n : Z)
| Str (s : string).

#[global] Instance value_eq_dec : EqDecision value.
Proof. solve_decision. Defined.

(** ToBoolean: undefined, null, false, 0 and the empty string are falsy. *)
Definition truthy (v : value) : bool :=
  match v with
  | Undefined | Null => false
  | Bool b => b
  | Num n => negb (n =? 0)
  | Str s => negb (String.eqb s "")
  end.

(** [a || b] yields [a] when it is truthy and [b] otherwise. *)
Definition or (a b : value) : value := if truthy a then a else b.

(** A parsed JSON object; reading a missing property gives undefined. *)
Definition get (o : gmap string value) (k : string) : value :=
  default Undefined (o !! k).

(** [o?.toUpperCase()] on ASCII text. *)
Definition upper_ascii (c : ascii) : ascii :=
  let n := nat_of_ascii c in
  if (Nat.leb 97 n && Nat.leb n 122)%bool then ascii_of_nat (n - 32) else c.

Fixpoint toUpperCase (s : string) : string :=
  match s with
  | EmptyString => EmptyString
  | String c r => String (upper_ascii c) (toUpperCase r)
  end.

(** String conversion inside a template literal. *)
Definition toString (v : value) : string :=
  match v with
  | Undefined => "undefined"
  | Null => "null"
  | Bool true => "true"
  | Bool false => "false"
  | Num n => pretty n
  | Str s => s
  end.

(** [s.includes(sub)]: [sub] occurs somewhere in [s]. *)
Fixpoint includes (sub s : string) : bool :=
  (String.prefix sub s
   || match s with
      | EmptyString => false
      | String _ rest => includes sub rest
      end)%bool.

End Js.

(** ** services/api.ts: the request each helper sends *)

Module Http.

Inductive method := GET | POST | PUT | DELETE.

#[global] Instance method_eq_dec : EqDecision method.
Proof. solve_decision. Defined.

(** The path is relative to the axios instance's base URL; the body is the
    object literal handed to axios, in source order. *)
Record request := mkRequest {
  meth : method;
  url : string;
  body : list (string * Js.value)
}.

#[global] Instance request_eq_dec : EqDecision request.
Proof. solve_decision. Defined.

End Http.

Inductive FirewallBackend := ufw | iptables | firewalld | nftables.

#[global] Instance FirewallBackend_eq_dec : EqDecision FirewallBackend.
Proof. solve_decision. Defined.

Definition backend_name (b : FirewallBackend) : string :=
  match b with
  | ufw => "ufw"
  | iptables => "iptables"
  | firewalld => "firewalld"
  | nftables => "nftables"
  end.

Module firewallApi.
Import Http.

Definition getStatus := mkRequest GET "/firewall/status" [].
Definition getBackends := mkRequest GET "/firewall/backends" [].

Definition getUfwRules := mkRequest GET "/firewall/ufw/rules" [].
Definition addUfwRule (rule : list (string * Js.value)) :=
  mkRequest POST "/firewall/ufw/rules" rule.
Definition deleteUfwRule (ruleId : string) :=
  mkRequest DELETE ("/firewall/ufw/rules/" +:+ ruleId) [].
Definition enableUfw := mkRequest POST "/firewall/ufw/enable" [].
Definition disableUfw := mkRequest POST "/firewall/ufw/disable" [].

Definition getIptablesRules := mkRequest GET "/firewall/iptables/rules" [].
Definition addIptablesRule (rule : list (string * Js.value)) :=
  mkRequest POST "/firewall/iptables/rules" rule.
Definition addFirewalldRule (rule : list (string * Js.value)) :=
  mkRequest POST "/firewall/firewalld/rules" rule.

(** The backend whose endpoint a request addresses: the path segment after
    [/firewall/]. *)
Definition endpoint_of (r : request) : option FirewallBackend :=
  if String.prefix "/firewall/ufw/" (url r) then Some ufw
  else if String.prefix "/firewall/iptables/" (url r) then Some iptables
  else if String.prefix "/firewall/firewalld/" (url r) then Some firewalld
  else if String.prefix "/firewall/nftables/" (url r) then Some nftables
  else None.

End firewallApi.

(** ** pages/Firewall.tsx *)

Module Firewall.
Import Http.

(** What a handler does besides updating component state. [Send] is the
    axios call made by a mutation's [mutationFn]. *)
Inductive effect :=
| Send (r : request)
| ToastError (msg : string)
| ToastSuccess (msg : string)
| InvalidateQueries (queryKey : string).

Definition sent (es : list effect) : list request :=
  omap (fun e => match e with Send r => Some r | _ => None end) es.

(** *** Mutations declared by the page *)

Definition enableMutation_mutationFn : request := firewallApi.enableUfw.
Definition disableMutation_mutationFn : request := firewallApi.disableUfw.
Definition deleteRuleMutation_mutationFn (ruleId : Js.value) : request :=
  firewallApi.deleteUfwRule (Js.toString ruleId).

Definition enableMutation_onSuccess : list effect :=
  [ToastSuccess "Firewall enabled"; InvalidateQueries "firewall-status"].
Definition enableMutation_onError : list effect :=
  [ToastError "Failed to enable firewall"].
Definition disableMutation_onSuccess : list effect :=
  [ToastSuccess "Firewall disabled"; InvalidateQueries "firewall-status"].
Definition disableMutation_onError : list effect :=
  [ToastError "Failed to disable firewall"].
Definition deleteRuleMutation_onSuccess : list effect :=
  [ToastSuccess "Rule deleted"; InvalidateQueries "ufw-rules"].
Definition deleteRuleMutation_onError : list effect :=
  [ToastError "Failed to delete rule"].

(** *** AddRuleModal *)

Module AddRuleModal.

Record form := mkForm {
  action : string;
  direction : string;
  port : string;
  protocol : string;
  fromIp : string;
  comment : string
}.

Definition resetForm : form := mkForm "allow" "in" "" "tcp" "" "".

Definition addRuleMutation_mutationFn (rule : list (string * Js.value)) : request :=
  firewallApi.addUfwRule rule.

(** The component receives the selected backend as the prop [backend],
    bound to [_backend] and not read again. *)
Definition handleSubmit (_backend : FirewallBackend) (f : form) : list effect :=
  if String.eqb (port f) "" then [ToastError "Port is required"]
  else
    [Send (addRuleMutation_mutationFn
             [("action", Js.Str (action f));
              ("direction", Js.Str (direction f));
              ("port", Js.Str (port f));
              ("protocol", Js.Str (protocol f));
              ("from_ip", Js.or (Js.Str (fromIp f)) (Js.Str "any"));
              ("comment", Js.or (Js.Str (comment f)) Js.Undefined)])].

End AddRuleModal.

(** *** Component state and query data *)

Record state := mkState {
  selectedBackend : FirewallBackend;
  addRuleOpen : bool
}.

Definition initial : state := mkState ufw false.

Record statusEntry := mkStatus {
  st_backend : string;
  st_available : bool;
  st_enabled : bool
}.

Record data := mkData {
  backends_available : option (list string);
  backends_preferred : Js.value;
  status : option (list statusEntry);
  ufwRules : option (list (gmap string Js.value));
  rulesLoading : bool;
  iptablesRules : option (list (gmap string Js.value))
}.

Definition ufwStatus (d : data) : option statusEntry :=
  s ← status d; find (fun s => String.eqb (st_backend s) "ufw") s.

Definition rules (s : state) (d : data) : option (list (gmap string Js.value)) :=
  if decide (selectedBackend s = ufw) then ufwRules d else iptablesRules d.

(** "Preferred: {backends?.preferred || 'None detected'}" *)
Definition preferredLabel (d : data) : Js.value :=
  Js.or (backends_preferred d) (Js.Str "None detected").

Definition isAvailable (d : data) (b : FirewallBackend) : bool :=
  match backends_available d with
  | Some l => bool_decide (backend_name b ∈ l)
  | None => false
  end.

(** *** The clickable elements the page renders *)

Inductive control :=
| BackendButton (b : FirewallBackend) (disabled : bool)
| DisableButton
| EnableButton
| AddRuleButton
| DeleteButton (ruleId : Js.value)
| SubmitButton.

#[global] Instance control_eq_dec : EqDecision control.
Proof. solve_decision. Defined.

Definition ufwControls (s : state) (d : data) : list control :=
  match ufwStatus d with
  | Some u =>
      if (bool_decide (selectedBackend s = ufw) && st_available u)%bool then
        [if st_enabled u then DisableButton else EnableButton; AddRuleButton]
      else []
  | None => []
  end.

Definition rulesTable (s : state) (d : data) : list control :=
  if rulesLoading d then []
  else match rules s d with
       | Some rs => (fun r => DeleteButton (Js.get r "id")) <$> rs
       | None => []
       end.

Definition controls (s : state) (d : data) : list control :=
  ((fun b => BackendButton b (negb (isAvailable d b))) <$> [ufw; iptables; firewalld; nftables])
  ++ ufwControls s d
  ++ rulesTable s d
  ++ (if addRuleOpen s then [SubmitButton] else []).

(** The handler attached to each element. *)
Definition click (c : control) (f : AddRuleModal.form) (s : state) : state * list effect :=
  match c with
  | BackendButton b disabled =>
      if disabled then (s, []) else (mkState b (addRuleOpen s), [])
  | DisableButton => (s, [Send disableMutation_mutationFn])
  | EnableButton => (s, [Send enableMutation_mutationFn])
  | AddRuleButton => (mkState (selectedBackend s) true, [])
  | DeleteButton ruleId => (s, [Send (deleteRuleMutation_mutationFn ruleId)])
  | SubmitButton => (s, AddRuleModal.handleSubmit (selectedBackend s) f)
  end.

(** *** The mutating operations of the page, by the backend selected when
    they are issued *)

Inductive mutation :=
| AddRule (f : AddRuleModal.form)
| Enable
| Disable.

Definition issue (selected : FirewallBackend) (m : mutation) : list request :=
  match m with
  | AddRule f => sent (AddRuleModal.handleSubmit selected f)
  | Enable => [enableMutation_mutationFn]
  | Disable => [disableMutation_mutationFn]
  end.

(** *** One row of the rules table *)

Record row := mkRow {
  key : Js.value;
  cell_id : Js.value;
  badge : string;
  cell_action : Js.value;
  cell_direction : Js.value;
  cell_port : Js.value;
  cell_from : Js.value;
  cell_protocol : Js.value;
  delete_arg : Js.value
}.

Definition actionBadge (a : Js.value) : string :=
  if decide (a = Js.Str "allow") then "badge-success"
  else if decide (a = Js.Str "deny") then "badge-danger"
  else if decide (a = Js.Str "reject") then "badge-warning"
  else "badge-info".

(** [rule.action?.toUpperCase()]: skipped on undefined and null, a
    TypeError on a value that is not a string. *)
Definition actionText (a : Js.value) : option Js.value :=
  match a with
  | Js.Undefined | Js.Null => Some Js.Undefined
  | Js.Str s => Some (Js.Str (Js.toUpperCase s))
  | _ => None
  end.

Definition renderRow (rule : gmap string Js.value) : option row :=
  txt ← actionText (Js.get rule "action");
  Some {|
    key := Js.get rule "id";
    cell_id := Js.get rule "id";
    badge := actionBadge (Js.get rule "action");
    cell_action := txt;
    cell_direction := Js.or (Js.get rule "direction") (Js.Str "in");
    cell_port :=
      Js.or (Js.or (Js.or (Js.get rule "port") (Js.get rule "app")) (Js.get rule "to"))
            (Js.Str "any");
    cell_from := Js.or (Js.get rule "from") (Js.Str "Anywhere");
    cell_protocol := Js.or (Js.get rule "protocol") (Js.Str "any");
    delete_arg := Js.get rule "id"
  |}.

(** The properties of a rule object that the table reads. *)
Definition consumed : list string :=
  ["id"; "action"; "direction"; "port"; "app"; "to"; "from"; "protocol"].

(** The shape the interface description gives for a rule. *)
Definition neutral_shape : list string :=
  ["id"; "action"; "direction"; "port"; "protocol"; "source"; "comment"].

(** *** A visit to the page *)

(** The operator clicks through [steps]; a click on an element the page
    does not render at that moment does not happen. The query data [d] stays
    as it is during the visit. *)
Fixpoint session (d : data) (steps : list (control * AddRuleModal.form)) (s : state)
  : state * list effect :=
  match steps with
  | [] => (s, [])
  | (c, f) :: rest =>
      if bool_decide (c ∈ controls s d) then
        let '(s1, es) := click c f s in
        let '(s2, es') := session d rest s1 in
        (s2, es ++ es')
      else session d rest s
  end.


End Firewall.

(** ** services/api.ts: the ports helpers *)

Module portsApi.
Import Http.

(** A request together with the [params] object given to axios, which
    leaves out the parameters that are undefined. *)
Record call := mkCall {
  request : Http.request;
  params : list (string * Js.value)
}.

(** [scanPorts: (target, portRange) =>
     api.post('/ports/scan', { target, port_range: portRange })] *)
Definition scanPorts (target portRange : string) : call :=
  mkCall (mkRequest POST "/ports/scan"
            [("target", Js.Str target); ("port_range", Js.Str portRange)]) [].

(** [blockPort: (port, protocol = 'tcp', iface) =>
     api.post('/ports/block', null, { params: { port, protocol, interface: iface } })] *)
Definition blockPort (port : Z) (protocol : string) (iface : Js.value) : call :=
  mkCall (mkRequest POST "/ports/block" [])
         [("port", Js.Num port); ("protocol", Js.Str protocol); ("interface", iface)].

End portsApi.

(** ** pages/Ports.tsx *)

Module Ports.

Record PortInfo := mkPort {
  port : Z;
  protocol : string;
  address : option string;
  ip : option string;
  process : option string;
  program : option string;
  pid : option Z;
  interface : option string;
  is_public : option bool;
  state : option string
}.

(** An optional boolean used as a condition: only [true] is truthy. *)
Definition flag (b : option bool) : bool := default false b.

Definition address_is (p : PortInfo) (s : string) : bool :=
  bool_decide (address p = Some s).

(** The predicate of the filter that computes [stats.public]. *)
Definition publicFilter (p : PortInfo) : bool :=
  (address_is p "0.0.0.0" || address_is p "::" || address_is p "*" || flag (is_public p))%bool.

Record Stats := mkStats {
  total : nat;
  tcp : nat;
  udp : nat;
  public : nat
}.

(** [listeningPorts] is undefined until the query has answered; every
    count then falls back to 0 through [|| 0]. *)
Definition stats (listeningPorts : option (list PortInfo)) : Stats :=
  match listeningPorts with
  | None => mkStats 0 0 0 0
  | Some l =>
      mkStats (length l)
              (length (filter (fun p => protocol p = "tcp") l))
              (length (filter (fun p => protocol p = "udp") l))
              (length (filter (fun p => publicFilter p = true) l))
  end.

(** The class of the address cell in the list view. *)
Definition addressClass (p : PortInfo) : string :=
  if (address_is p "0.0.0.0" || address_is p "::" || address_is p "*" || flag (is_public p))%bool
  then "text-yellow-400" else "text-dark-300".

(** The text of the address cell: [port.address || port.ip || '*']. *)
Definition addressText (p : PortInfo) : string :=
  match address p with
  | Some a => if String.eqb a "" then
                match ip p with
                | Some i => if String.eqb i "" then "*" else i
                | None => "*"
                end
              else a
  | None => match ip p with
            | Some i => if String.eqb i "" then "*" else i
            | None => "*"
            end
  end.

(** The three bind addresses that stand for every interface. *)
Definition wildcards : list string := ["0.0.0.0"; "::"; "*"].

(** The count as the interface description words it: entries whose address
    is one of the wildcard forms or whose [is_public] flag is set. *)
Fixpoint count_public (l : list PortInfo) : nat :=
  match l with
  | [] => 0
  | p :: r =>
      let wild := match address p with
                  | Some a => bool_decide (a ∈ wildcards)
                  | None => false
                  end in
      let flagged := bool_decide (is_public p = Some true) in
      ((if (wild || flagged)%bool then 1 else 0) + count_public r)%nat
  end.

(** *** BlockPortModal *)

Module BlockPortModal.

(** The two pieces of component state. The function handed to the third
    [useState] runs once, when the modal is mounted with the page and [port]
    is still null, so the state follows the selectors only. *)
Record state := mkState {
  selectedInterface : string;
  selectedProtocol : string
}.

Definition initial : state := mkState "all" "tcp".

Record NetworkInterface := mkInterface {
  name : string;
  if_state : option string
}.

(** The values offered by the interface selector: all, then every
    interface that is not named lo. *)
Definition interfaceOptions (interfaces : list NetworkInterface) : list string :=
  "all" :: (name <$> List.filter (fun i => negb (String.eqb (name i) "lo")) interfaces).

Definition protocolOptions : list string := ["tcp"; "udp"].

Inductive change :=
| SetSelectedInterface (value : string)
| SetProtocol (value : string).

(** The [onChange] handlers of the two selectors; a selector only produces
    one of its option values. *)
Definition onChange (interfaces : list NetworkInterface) (c : change) (s : state) : state :=
  match c with
  | SetSelectedInterface v =>
      if bool_decide (v ∈ interfaceOptions interfaces)
      then mkState v (selectedProtocol s) else s
  | SetProtocol v =>
      if bool_decide (v ∈ protocolOptions)
      then mkState (selectedInterface s) v else s
  end.

Definition edit (interfaces : list NetworkInterface) (cs : list change) (s : state) : state :=
  foldl (fun s c => onChange interfaces c s) s cs.

(** [handleSubmit] with the page's [onBlock], which hands its arguments to
    [blockMutation] and so to [portsApi.blockPort]. *)
Definition handleSubmit (port : option PortInfo) (s : state) : list portsApi.call :=
  match port with
  | None => []
  | Some p =>
      [portsApi.blockPort (Ports.port p) (selectedProtocol s)
         (if negb (String.eqb (selectedInterface s) "all")
          then Js.Str (selectedInterface s) else Js.Undefined)]
  end.

(** Both selectors show one of their options. *)
Definition well_chosen (interfaces : list NetworkInterface) (s : state) : Prop :=
  selectedInterface s ∈ interfaceOptions interfaces
  /\ selectedProtocol s ∈ protocolOptions.

End BlockPortModal.

(** The entry the page hands to the modal from the interface view:
    [{ ...port, interface: group.interface }]. *)
Definition withInterface (p : PortInfo) (group_interface : string) : PortInfo :=
  mkPort (port p) (protocol p) (address p) (ip p) (process p) (program p) (pid p)
         (Some group_interface) (is_public p) (state p).

End Ports.

(** ** pages/Users.tsx *)

Module usersApi.
Import Http.

(** [delete: (id) => api.delete(`/users/${id}`)] *)
Definition delete (id : Js.value) : request :=
  mkRequest DELETE ("/users/" +:+ Js.toString id) [].

(** [create: (user) => api.post('/users', user)] *)
Definition create (user : list (string * Js.value)) : request :=
  mkRequest POST "/users" user.

(** [update: (id, user) => api.put(`/users/${id}`, user)] *)
Definition update (id : Js.value) (user : list (string * Js.value)) : request :=
  mkRequest PUT ("/users/" +:+ Js.toString id) user.

End usersApi.

Module Users.
Import Http.

(** A row of the users table is untyped in the source; the logged-in user
    comes from the store, where its id is a number. *)
Record user := mkUser {
  id : Js.value;
  username : string
}.

Record currentUser := mkCurrent {
  cu_id : Z;
  cu_username : string
}.

Inductive effect :=
| ToastError (msg : string)
| Confirm (msg : string)
| Send (r : request).

(** The double-quote character around the name in the confirm message. *)
Definition dquote : string := String (ascii_of_nat 34) EmptyString.

(** [currentUser?.id] *)
Definition currentId (cu : option currentUser) : Js.value :=
  match cu with
  | Some c => Js.Num (cu_id c)
  | None => Js.Undefined
  end.

Definition deleteUserMutation_mutationFn (userId : Js.value) : request :=
  usersApi.delete userId.

(** [answer] is what the operator replies to the browser's confirm
    dialog, should it be shown. *)
Definition handleDelete (cu : option currentUser) (answer : bool) (u : user) : list effect :=
  if decide (id u = currentId cu) then
    [ToastError "You cannot delete your own account"]
  else
    Confirm ("Are you sure you want to delete user " +:+ dquote +:+ username u
             +:+ dquote +:+ "?")
    :: (if answer then [Send (deleteUserMutation_mutationFn (id u))] else []).

(** The [disabled] attribute of the row's delete button. *)
Definition deleteDisabled (cu : option currentUser) (isPending : bool) (u : user) : bool :=
  (bool_decide (id u = currentId cu) || isPending)%bool.

Definition requests (es : list effect) : list request :=
  omap (fun e => match e with Send r => Some r | _ => None end) es.

(** *** UserModal *)

Module UserModal.

(** The form fields held in component state. *)
Record form := mkForm {
  f_username : string;
  f_email : string;
  f_password : string;
  f_role : string;
  f_isActive : bool
}.

Definition resetForm : form := mkForm "" "" "" "viewer" true.

(** The object [data] of [handleSubmit]: the password is added only when
    one was typed. *)
Definition data (f : form) : list (string * Js.value) :=
  [("username", Js.Str (f_username f));
   ("email", Js.or (Js.Str (f_email f)) Js.Undefined);
   ("role", Js.Str (f_role f));
   ("is_active", Js.Bool (f_isActive f))]
  ++ (if String.eqb (f_password f) "" then [] else [("password", Js.Str (f_password f))]).

(** [user] is the prop of the modal: the row being edited, or nothing when
    a user is being added ([isEditing] is [!!user]). *)
Definition handleSubmit (user : option Users.user) (f : form) : list effect :=
  if String.eqb (f_username f) "" then [ToastError "Username is required"]
  else
    match user with
    | None =>
        if String.eqb (f_password f) "" then
          [ToastError "Password is required for new users"]
        else [Send (usersApi.create (data f))]
    | Some u => [Send (usersApi.update (id u) (data f))]
    end.

End UserModal.

End Users.

(** ** App.tsx: routing and the protected area *)

Module App.

Inductive Page := Dashboard | FirewallPage | Network | PortsPage | Docker | UsersPage | Audit.

Inductive Element :=
| LoginElement
| Navigate (to : string) (replace : bool)
| LayoutElement (child : option Page).

(** [children] is the element the route would show. *)
Definition ProtectedRoute (isAuthenticated : bool) (children : Element) : Element :=
  if negb isAuthenticated then Navigate "/login" true else children.

(** The routes nested inside the layout, in source order. *)
Definition pages : list (string * Page) :=
  [("/", Dashboard); ("/firewall", FirewallPage); ("/network", Network);
   ("/ports", PortsPage); ("/docker", Docker); ("/users", UsersPage);
   ("/audit", Audit)].

Section Router.

(** The router's test of a path pattern against the location, a function
    of react-router: [matchPath pattern pathname]. *)
Variable matchPath : string -> string -> bool.

(** The inner [Routes] element: the page of the first pattern that
    matches, nothing when none does. *)
Definition innerRoutes (pathname : string) : option Page :=
  snd <$> find (fun r => matchPath (fst r) pathname) pages.

(** The outer [Routes] element: the static pattern [/login] outranks the
    splat [/*], which matches every location. *)
Definition App (pathname : string) (isAuthenticated : bool) : Element :=
  if matchPath "/login" pathname then LoginElement
  else ProtectedRoute isAuthenticated (LayoutElement (innerRoutes pathname)).

End Router.

(** A matcher that accepts exactly the pattern's own text. *)
Definition exactPath (pattern pathname : string) : bool := String.eqb pattern pathname.

End App.

(** ** stores/authStore.ts *)

Module authStore.

Record User := mkUser {
  id : Z;
  username : string;
  email : string;
  role : string;
  full_name : option string
}.

(** The data part of [AuthState]. *)
Record AuthState := mkAuth {
  token : option string;
  user : option User;
  isAuthenticated : bool
}.

Definition initialState : AuthState := mkAuth None None false.

(** The store together with the axios instance's default Authorization
    header, which [login] and [logout] also write. *)
Record world := mkWorld {
  store : AuthState;
  authorization : option string
}.

(** How an awaited axios call settles. *)
Inductive settled (A : Type) :=
| Fulfilled (data : A)
| Rejected (status : option Z).
Arguments Fulfilled {A} data.
Arguments Rejected {A} status.

(** The server as [login] sees it: the answer to POST /auth/login for the
    submitted credentials, and the answer to GET /auth/me for the
    Authorization header of the request, each as the awaited call settles.
    The response interceptor of services/api.ts adds toasts and, on a 401
    away from the login page, drops the persisted copy and redirects; it
    does not call the store. *)
Record server := mkServer {
  post_login : string -> string -> settled string;
  get_me : string -> settled User
}.

Inductive completion :=
| Returned
| Thrown (status : option Z).

Definition bearer (access_token : string) : string := "Bearer " +:+ access_token.

(** The request interceptor of services/api.ts: a token found in the
    persisted copy of the store replaces the Authorization header of the
    outgoing request. *)
Definition requestHeader (w : world) (explicit : string) : string :=
  match token (store w) with
  | Some t => if String.eqb t "" then explicit else bearer t
  | None => explicit
  end.

Definition login (srv : server) (username password : string) (w : world)
  : world * completion :=
  match post_login srv username password with
  | Rejected e => (w, Thrown e)
  | Fulfilled access_token =>
      let w1 := mkWorld (store w) (Some (bearer access_token)) in
      match get_me srv (requestHeader w1 (bearer access_token)) with
      | Rejected e => (w1, Thrown e)
      | Fulfilled userData =>
          (mkWorld (mkAuth (Some access_token) (Some userData) true)
                   (authorization w1),
           Returned)
      end
  end.

Definition logout (w : world) : world :=
  mkWorld (mkAuth None None false) None.

Definition setUser (u : User) (w : world) : world :=
  mkWorld (mkAuth (token (store w)) (Some u) (isAuthenticated (store w)))
          (authorization w).

(** *** The persist middleware options *)

(** [partialize]: the part of the state written to local storage under
    auth-storage after every [set]. *)
Definition partialize (s : AuthState) : AuthState :=
  mkAuth (token s) (user s) (isAuthenticated s).

(** [onRehydrateStorage]: once the persisted state is back, a truthy token
    is put into the default Authorization header. *)
Definition onRehydrateStorage (persisted : option AuthState) (authorization : option string)
  : option string :=
  match persisted with
  | Some st =>
      match token st with
      | Some t => if String.eqb t "" then authorization else Some (bearer t)
      | None => authorization
      end
  | None => authorization
  end.

(** A page load: the store starts from its initial state with the persisted
    part laid over it, the axios instance starts without an Authorization
    header, and the rehydration callback runs. *)
Definition rehydrate (persisted : option AuthState) : world :=
  mkWorld (default initialState persisted) (onRehydrateStorage persisted None).

End authStore.

(** ** services/api.ts: the response interceptor *)

Module api.

Inductive effect :=
| RemoveItem (key : string)
| SetLocation (href : string)
| ToastError (msg : string).

(** What the interceptor does with a failed response before it rejects
    again: [status] is [error.response?.status] (absent when no response
    came), [pathname] is [window.location.pathname]. *)
Definition onResponseError (status : option Z) (pathname : string) : list effect :=
  if bool_decide (status = Some 401) then
    if negb (Js.includes "/login" pathname) then
      [RemoveItem "auth-storage"; SetLocation "/login";
       ToastError "Session expired. Please login again."]
    else []
  else if bool_decide (status = Some 403) then [ToastError "Access denied"]
  else
    match status with
    | Some n => if 500 <=? n then [ToastError "Server error. Please try again later."] else []
    | None => []
    end.

Definition toasts (es : list effect) : list string :=
  omap (fun e => match e with ToastError m => Some m | _ => None end) es.

End api.

(** ** components/Layout.tsx *)

Module Layout.

(** An entry of [navigation]; an entry without [adminOnly] has it
    undefined, which is falsy. *)
Record navItem := mkItem {
  name : string;
  href : string;
  adminOnly : bool
}.

#[global] Instance navItem_eq_dec : EqDecision navItem.
Proof. solve_decision. Defined.

Definition navigation : list navItem :=
  [mkItem "Dashboard" "/" false;
   mkItem "Firewall" "/firewall" false;
   mkItem "Network" "/network" false;
   mkItem "Ports" "/ports" false;
   mkItem "Docker" "/docker" false;
   mkItem "Users" "/users" true;
   mkItem "Audit Log" "/audit" true].

(** [user?.role === 'admin'] *)
Definition isAdmin (user : option authStore.User) : bool :=
  match user with
  | Some u => String.eqb (authStore.role u) "admin"
  | None => false
  end.

Definition filteredNav (user : option authStore.User) : list navItem :=
  List.filter (fun item => (negb (adminOnly item) || isAdmin user)%bool) navigation.

(** The heading of the top bar:
    [filteredNav.find(item => item.href === location.pathname)?.name
     || 'Firewall Manager']. *)
Definition heading (user : option authStore.User) (pathname : string) : string :=
  match List.find (fun item => String.eqb (href item) pathname) (filteredNav user) with
  | Some item => if String.eqb (name item) "" then "Firewall Manager" else name item
  | None => "Firewall Manager"
  end.

(** The links of the sidebar, each with whether it is shown as current. *)
Definition sidebar (user : option authStore.User) (currentPath : string)
  : list (string * bool) :=
  (fun item => (href item, String.eqb currentPath (href item))) <$> filteredNav user.

End Layout.

(** ** pages/Login.tsx *)

Module Login.

Inductive effect :=
| SetLoading (b : bool)
| ToastError (msg : Js.value)
| ToastSuccess (msg : string)
| NavigateTo (path : string).

(** [detail] is [error.response?.data?.detail] of the error [login]
    throws, should it throw. *)
Definition handleSubmit (srv : authStore.server) (detail : Js.value)
    (username password : string) (w : authStore.world)
  : authStore.world * list effect :=
  if (String.eqb username "" || String.eqb password "")%bool then
    (w, [ToastError (Js.Str "Please enter username and password")])
  else
    match authStore.login srv username password w with
    | (w', authStore.Returned) =>
        (w', [SetLoading true; ToastSuccess "Login successful!"; NavigateTo "/";
              SetLoading false])
    | (w', authStore.Thrown _) =>
        (w', [SetLoading true; ToastError (Js.or detail (Js.Str "Login failed"));
              SetLoading false])
    end.

(** The value of [loading] after the handler, from its value before. *)
Definition loading (before : bool) (es : list effect) : bool :=
  foldl (fun l e => match e with SetLoading b => b | _ => l end) before es.

End Login.

(** ** pages/Docker.tsx *)

Module Docker.

(** The two properties of a container object that the statistics read. *)
Record container := mkContainer {
  status : option string;
  state : option string
}.

(** [c.status?.includes('Up')], as a condition. *)
Definition statusUp (c : container) : bool :=
  match status c with
  | Some s => Js.includes "Up" s
  | None => false
  end.

Definition isRunning (c : container) : bool :=
  (statusUp c || bool_decide (state c = Some "running"))%bool.

Definition isStopped (c : container) : bool :=
  (negb (statusUp c) && negb (bool_decide (state c = Some "running")))%bool.

Record Stats := mkStats {
  running : nat;
  stopped : nat;
  total : nat
}.

(** [containers] is undefined until the query has answered. *)
Definition stats (containers : option (list container)) : Stats :=
  match containers with
  | None => mkStats 0 0 0
  | Some l =>
      mkStats (length (List.filter isRunning l)) (length (List.filter isStopped l)) (length l)
  end.

End Docker.

(** ** pages/Audit.tsx *)

Module Audit.

Definition getActionColor (action : string) : string :=
  if (Js.includes "create" action || Js.includes "add" action
      || Js.includes "enable" action)%bool
  then "text-green-500 bg-green-500/20"
  else if (Js.includes "delete" action || Js.includes "remove" action
           || Js.includes "disable" action)%bool
  then "text-red-500 bg-red-500/20"
  else if (Js.includes "update" action || Js.includes "modify" action)%bool
  then "text-yellow-500 bg-yellow-500/20"
  else if (Js.includes "login" action || Js.includes "logout" action)%bool
  then "text-blue-500 bg-blue-500/20"
  else "text-dark-400 bg-dark-600".

(** The numbers of the activity summary, over the actions of the listed
    events. *)
Record Summary := mkSummary {
  totalEvents : nat;
  createActions : nat;
  updateActions : nat;
  deleteActions : nat
}.

Definition summary (logs : list string) : Summary :=
  mkSummary
    (length logs)
    (length (List.filter
               (fun a => (Js.includes "create" a || Js.includes "add" a
                          || Js.includes "enable" a)%bool) logs))
    (length (List.filter
               (fun a => (Js.includes "update" a || Js.includes "modify" a)%bool) logs))
    (length (List.filter
               (fun a => (Js.includes "delete" a || Js.includes "remove" a
                          || Js.includes "disable" a)%bool) logs)).

(** How many of the events are drawn in [color]. *)
Definition drawn (color : string) (logs : list string) : nat :=
  length (List.filter (fun a => String.eqb (getActionColor a) color) logs).

End Audit.

(** ** The firewall abstraction behind the REST endpoints

    The Python backend is not part of the sources at hand; the pages only
    call it. Its probe, adapters and coordinator are modelled from the
    written specification. *)

Module Core.

(** Modelled from the spec: the status codes surfaced outward besides
    success; the backend that raises them is not among the sources. *)
Inductive Failure :=
| BackendUnavailable
| UnsupportedOperation
| InvalidRule
| RuleNotFound
| BackendTimeout
| ParseError.

(** Modelled from the spec: the value sets of the backend-neutral rule
    model, which the backend declares. *)
Inductive Action := allow | deny | reject | limit.
Inductive Direction := dir_in | dir_out.
Inductive Protocol := tcp | udp | any_protocol.

(** Modelled from the spec: the semantic fields of a FirewallRule of the
    backend's rule model; the identifier is assigned by a listing. *)
Record RuleBody := mkBody {
  action : Action;
  direction : Direction;
  protocol : Protocol;
  port : string;
  sourceAddress : string;
  comment : option string
}.

(** Modelled from the spec: a FirewallRule as a listing of the backend
    returns it. *)
Record FirewallRule := mkRule {
  id : string;
  fields : RuleBody
}.

#[global] Instance Action_eq_dec : EqDecision Action.
Proof. solve_decision. Defined.
#[global] Instance Direction_eq_dec : EqDecision Direction.
Proof. solve_decision. Defined.
#[global] Instance Protocol_eq_dec : EqDecision Protocol.
Proof. solve_decision. Defined.
#[global] Instance RuleBody_eq_dec : EqDecision RuleBody.
Proof. solve_decision. Defined.

(** *** Backend Probe *)

(** Modelled from the spec: the facts about a host that the probe looks
    at, one answer per candidate backend and check. *)
Record host := mkHost {
  binaryPresent : FirewallBackend -> bool;
  versionQueryOk : FirewallBackend -> bool;
  serviceReachable : FirewallBackend -> bool
}.

(** Modelled from the spec: the daemon-backed backends of the probe
    (firewalld). *)
Definition daemonBacked (b : FirewallBackend) : bool :=
  match b with firewalld => true | _ => false end.

(** Modelled from the spec: the checks in order, binary presence, version
    query, and service reachability for a daemon-backed backend; a backend
    that fails any check is not available. *)
Definition usable (h : host) (b : FirewallBackend) : bool :=
  if binaryPresent h b then
    if versionQueryOk h b then
      if daemonBacked b then serviceReachable h b else true
    else false
  else false.

(** Modelled from the spec: the probe's fixed preference order, best
    first. *)
Definition priority : list FirewallBackend := [ufw; firewalld; nftables; iptables].

(** Modelled from the spec: the place of a backend in the probe's order
    ufw > firewalld > nftables > iptables; a smaller rank is a higher
    priority. *)
Definition rank (b : FirewallBackend) : nat :=
  match b with
  | ufw => 0
  | firewalld => 1
  | nftables => 2
  | iptables => 3
  end.

(** Modelled from the spec: the result of the backend probe. *)
Record probeResult := mkProbe {
  available : list FirewallBackend;
  preferred : option FirewallBackend
}.

(** Modelled from the spec: [detectBackends() -> {available, preferred}],
    which is not among the sources. *)
Definition detectBackends (h : host) : probeResult :=
  mkProbe (List.filter (usable h) [ufw; iptables; firewalld; nftables])
          (List.find (usable h) priority).

(** Modelled from the spec: the [preferred] and [available] attributes of
    a backend in the backend's data model. *)
Definition isPreferred (p : probeResult) (b : FirewallBackend) : bool :=
  bool_decide (preferred p = Some b).

Definition isAvailableIn (p : probeResult) (b : FirewallBackend) : bool :=
  bool_decide (b ∈ available p).

(** Modelled from the spec: what the backend's GET /firewall/backends
    hands to the page, by the names the page reads. *)
Definition backendsJson (p : probeResult) : option (list string) * Js.value :=
  (Some (backend_name <$> available p),
   match preferred p with
   | Some b => Js.Str (backend_name b)
   | None => Js.Null
   end).

(** *** Command Runner and backend state *)

(** Modelled from the spec: a native command, as the adapter of a backend
    builds it for the Command Runner. *)
Inductive NativeCommand :=
| NativeList
| NativeAdd (r : RuleBody)
| NativeDelete (id : string).

(** Modelled from the spec: the state that lives in the kernel or daemon
    (one ordered ruleset per backend) and the record of what the Command
    Runner was asked to run. *)
Record world := mkWorld {
  ruleset : FirewallBackend -> list RuleBody;
  invocations : list (FirewallBackend * NativeCommand)
}.

(** Modelled from the spec: the normalizer of an adapter; identifiers are
    positions in the current listing, from 1, as text, so that they are
    renumbered by every mutation. *)
Definition number (l : list RuleBody) : list FirewallRule :=
  imap (fun i r => mkRule (pretty (S i)) r) l.

(** Modelled from the spec: [listRules], which runs the native listing
    and normalizes it, in the backend's own order. *)
Definition listRules (b : FirewallBackend) (w : world) : list FirewallRule * world :=
  (number (ruleset w b),
   mkWorld (ruleset w) (invocations w ++ [(b, NativeList)])).

(** Modelled from the spec: the adapter's search of a listing for an
    identifier. *)
Fixpoint position (i : string) (l : list FirewallRule) : option nat :=
  match l with
  | [] => None
  | r :: rest => if String.eqb (id r) i then Some 0%nat else S <$> position i rest
  end.

(** Modelled from the spec: [deleteRule(id)], which lists again
    immediately before the delete and fails with RuleNotFound when the
    listing shows no rule with that id. *)
Definition deleteRule (b : FirewallBackend) (i : string) (w : world)
  : (Failure + unit) * world :=
  let '(listing, w1) := listRules b w in
  match position i listing with
  | None => (inl RuleNotFound, w1)
  | Some k =>
      (inr tt,
       mkWorld (<[b := delete k (ruleset w1 b)]> (ruleset w1))
               (invocations w1 ++ [(b, NativeDelete i)]))
  end.

(** Modelled from the spec: [addRule(rule)], which fails with
    BackendUnavailable for a backend the probe did not find, with
    InvalidRule for a rule the backend rejects ([accepts] stands for the
    backend's constraints), and otherwise runs the native add and lists
    again to resolve the identifier of the new rule. *)
Definition addRule (accepts : FirewallBackend -> RuleBody -> bool)
    (p : probeResult) (b : FirewallBackend) (r : RuleBody) (w : world)
  : (Failure + FirewallRule) * world :=
  if negb (isAvailableIn p b) then (inl BackendUnavailable, w)
  else if negb (accepts b r) then (inl InvalidRule, w)
  else
    let w1 := mkWorld (<[b := ruleset w b ++ [r]]> (ruleset w))
                      (invocations w ++ [(b, NativeAdd r)]) in
    let '(listing, w2) := listRules b w1 in
    match list.last listing with
    | Some added => (inr added, w2)
    | None => (inl ParseError, w2)
    end.

End Core.

(** ** Reconciliation Coordinator

    The coordinator is part of the backend and not among the sources
    either. The model keeps what the lock is about, the interleaving of the
    calls of one process at their suspension points; timeouts and retries
    are left out. *)

Module Coordinator.
Import Core.

(** Modelled from the spec: the mutating operations that run under
    [withBackendLock]. *)
Inductive Operation :=
| OpAdd (r : RuleBody)
| OpDelete (i : string)
| OpEnable
| OpDisable.

(** Modelled from the spec: what a call under the coordinator returns. *)
Inductive Outcome :=
| Added (i : string)
| Deleted
| Switched
| Failed (f : Failure).

(** Modelled from the spec: where a call stands between its suspension
    points. The native add is not atomic for the backend: the tool reads
    the ruleset ([Loaded]) and writes it back with the rule appended
    ([Written]); the coordinator then lists again to resolve the id. A
    delete lists first ([Checked]). [Finishing] still holds the lock. *)
Inductive phase :=
| Waiting
| Locked
| Loaded (snapshot : list RuleBody)
| Written
| Checked (found : option nat)
| Finishing (o : Outcome)
| Done (o : Outcome).

(** Modelled from the spec: one request handled by the coordinator. *)
Record call := mkCall {
  target : FirewallBackend;
  op : Operation;
  at_phase : phase
}.

(** Modelled from the spec: the backends' state, the one lock per backend
    (holding the index of the call that owns it) and the calls of the
    process. *)
Record system := mkSystem {
  rules : FirewallBackend -> list RuleBody;
  enabled : FirewallBackend -> bool;
  holder : FirewallBackend -> option nat;
  calls : list call
}.

(** Between the acquisition of the lock and its release. *)
Definition holding (ph : phase) : bool :=
  match ph with
  | Waiting | Done _ => false
  | _ => true
  end.

Definition inFlight (c : call) : bool := holding (at_phase c).

Definition finished (c : call) : bool :=
  match at_phase c with
  | Done _ => true
  | _ => false
  end.

Definition move (i : nat) (c : call) (ph : phase) (cs : list call) : list call :=
  <[i := mkCall (target c) (op c) ph]> cs.

Section Steps.

(** Modelled from the spec: whether a backend's adapter has a direct
    analogue of enable and disable; a backend without one answers
    UnsupportedOperation. *)
Variable directToggle : FirewallBackend -> bool.

Definition toggle (b : FirewallBackend) (v : bool) (i : nat) (c : call) (s : system)
  : system :=
  if directToggle b then
    mkSystem (rules s) (<[b := v]> (enabled s)) (holder s)
             (move i c (Finishing Switched) (calls s))
  else
    mkSystem (rules s) (enabled s) (holder s)
             (move i c (Finishing (Failed UnsupportedOperation)) (calls s)).

(** Modelled from the spec: one scheduling step of call [i]; [None] when
    the call is blocked on the lock or has completed. *)
Definition step (i : nat) (s : system) : option system :=
  c ← calls s !! i;
  let b := target c in
  match at_phase c, op c with
  | Waiting, _ =>
      match holder s b with
      | None =>
          Some (mkSystem (rules s) (enabled s) (<[b := Some i]> (holder s))
                         (move i c Locked (calls s)))
      | Some _ => None
      end
  | Locked, OpAdd _ =>
      Some (mkSystem (rules s) (enabled s) (holder s)
                     (move i c (Loaded (rules s b)) (calls s)))
  | Loaded snapshot, OpAdd r =>
      Some (mkSystem (<[b := snapshot ++ [r]]> (rules s)) (enabled s) (holder s)
                     (move i c Written (calls s)))
  | Written, OpAdd _ =>
      Some (mkSystem (rules s) (enabled s) (holder s)
                     (move i c (Finishing (Added (pretty (length (rules s b)))))
                           (calls s)))
  | Locked, OpDelete r =>
      Some (mkSystem (rules s) (enabled s) (holder s)
                     (move i c (Checked (position r (number (rules s b)))) (calls s)))
  | Checked None, OpDelete _ =>
      Some (mkSystem (rules s) (enabled s) (holder s)
                     (move i c (Finishing (Failed RuleNotFound)) (calls s)))
  | Checked (Some k), OpDelete _ =>
      Some (mkSystem (<[b := delete k (rules s b)]> (rules s)) (enabled s) (holder s)
                     (move i c (Finishing Deleted) (calls s)))
  | Locked, OpEnable => Some (toggle b true i c s)
  | Locked, OpDisable => Some (toggle b false i c s)
  | Finishing o, _ =>
      Some (mkSystem (rules s) (enabled s) (<[b := None]> (holder s))
                     (move i c (Done o) (calls s)))
  | _, _ => None
  end.

(** Modelled from the spec: the scheduler of the process; at each turn
    the named call takes a step if it can. *)
Fixpoint run (schedule : list nat) (s : system) : system :=
  match schedule with
  | [] => s
  | i :: rest => run rest (default s (step i s))
  end.

(** The states an execution from [s0] passes through. *)
Inductive reachable (s0 : system) : system -> Prop :=
| reach_start : reachable s0 s0
| reach_step s i s' : reachable s0 s -> step i s = Some s' -> reachable s0 s'.

End Steps.

(** Modelled from the spec: the coordinator's process before any call has
    started, every lock free. *)
Definition start (rs : FirewallBackend -> list RuleBody) (en : FirewallBackend -> bool)
    (requests : list (FirewallBackend * Operation)) : system :=
  mkSystem rs en (fun _ => None) ((fun r => mkCall (fst r) (snd r) Waiting) <$> requests).

Definition isAdd (o : Operation) : bool :=
  match o with OpAdd _ => true | _ => false end.

Definition weight (P : call -> bool) (b : FirewallBackend) (c : call) : nat :=
  if (bool_decide (target c = b) && isAdd (op c) && P c)%bool then 1 else 0.

(** The number of add calls against [b] among [cs] that satisfy [P]. *)
Fixpoint adds (P : call -> bool) (b : FirewallBackend) (cs : list call) : nat :=
  match cs with
  | [] => 0
  | c :: rest => (weight P b c + adds P b rest)%nat
  end.

(** The number of requests against [b]. *)
Definition requested (b : FirewallBackend) (requests : list (FirewallBackend * Operation))
  : nat :=
  length (filter (fun r => fst r = b) requests).

(** An add whose write has reached the backend. *)
Definition written (ph : phase) : bool :=
  match ph with
  | Written | Finishing _ | Done _ => true
  | _ => false
  end.

Definition committed (c : call) : bool := written (at_phase c).

(** The steps of [step], read as a relation: the call [c] at index [i]
    moves to phase [ph] and the system from [s] to the last argument. *)
Inductive transition (i : nat) (c : call) (s : system) : phase -> system -> Prop :=
| t_acquire :
    at_phase c = Waiting -> holder s (target c) = None ->
    transition i c s Locked
      (mkSystem (rules s) (enabled s) (<[target c := Some i]> (holder s))
                (move i c Locked (calls s)))
| t_release o :
    at_phase c = Finishing o ->
    transition i c s (Done o)
      (mkSystem (rules s) (enabled s) (<[target c := None]> (holder s))
                (move i c (Done o) (calls s)))
| t_load r :
    at_phase c = Locked -> op c = OpAdd r ->
    transition i c s (Loaded (rules s (target c)))
      (mkSystem (rules s) (enabled s) (holder s)
                (move i c (Loaded (rules s (target c))) (calls s)))
| t_store snapshot r :
    at_phase c = Loaded snapshot -> op c = OpAdd r ->
    transition i c s Written
      (mkSystem (<[target c := snapshot ++ [r]]> (rules s)) (enabled s) (holder s)
                (move i c Written (calls s)))
| t_resolve r :
    at_phase c = Written -> op c = OpAdd r ->
    transition i c s (Finishing (Added (pretty (length (rules s (target c))))))
      (mkSystem (rules s) (enabled s) (holder s)
                (move i c (Finishing (Added (pretty (length (rules s (target c))))))
                      (calls s)))
| t_other ph rs en :
    isAdd (op c) = false -> inFlight c = true -> holding ph = true ->
    transition i c s ph (mkSystem rs en (holder s) (move i c ph (calls s))).

(** *** The invariants of the lock discipline *)

(** A call in flight owns the lock of its target. *)
Definition owns_lock (s : system) : Prop :=
  forall i c, calls s !! i = Some c -> inFlight c = true ->
              holder s (target c) = Some i.

(** A held lock belongs to a call in flight against that backend. *)
Definition lock_owned (s : system) : Prop :=
  forall b i, holder s b = Some i ->
              exists c, calls s !! i = Some c /\ target c = b /\ inFlight c = true.

(** The calls are the requests the process was started with. *)
Definition same_requests (requests : list (FirewallBackend * Operation)) (s : system)
  : Prop :=
  (fun c => (target c, op c)) <$> calls s = requests.

(** What the tool has read is still the ruleset: nobody wrote in
    between. *)
Definition fresh_snapshots (s : system) : Prop :=
  forall i c snapshot, calls s !! i = Some c -> at_phase c = Loaded snapshot ->
                       snapshot = rules s (target c).

Definition counted (rs : FirewallBackend -> list RuleBody) (s : system) : Prop :=
  forall b, length (rules s b) = (length (rs b) + adds committed b (calls s))%nat.

Definition kept (rs : FirewallBackend -> list RuleBody) (s : system) : Prop :=
  forall b r, r ∈ rs b -> r ∈ rules s b.

Definition present (s : system) : Prop :=
  forall i c r, calls s !! i = Some c -> op c = OpAdd r -> committed c = true ->
                r ∈ rules s (target c).

Definition adds_only (s : system) : Prop :=
  forall i c, calls s !! i = Some c -> isAdd (op c) = true.

Definition data_invariant (rs : FirewallBackend -> list RuleBody) (s : system) : Prop :=
  fresh_snapshots s /\ counted rs s /\ kept rs s /\ present s.

(** A call is in a phase of its own operation. *)
Definition well_phased (c : call) : bool :=
  match at_phase c, op c with
  | Loaded _, OpAdd _ | Written, OpAdd _ | Checked _, OpDelete _ => true
  | Loaded _, _ | Written, _ | Checked _, _ => false
  | _, _ => true
  end.

(** Modelled from the spec: a [listRules] taken in system state [s]. *)
Definition listing (s : system) (b : FirewallBackend) : list FirewallRule :=
  (listRules b (Core.mkWorld (rules s) [])).1.

(** What remains to be done: the steps a call still has to take. *)
Definition remaining (ph : phase) : nat :=
  match ph with
  | Waiting => 5
  | Locked => 4
  | Loaded _ => 3
  | Written => 2
  | Checked _ => 2
  | Finishing _ => 1
  | Done _ => 0
  end.

Definition workload (cs : list call) : nat :=
  foldr (fun c n => (remaining (at_phase c) + n)%nat) 0%nat cs.

End Coordinator.

(** ** Concrete inputs used by the examples below *)

Module Samples.

Definition https_form : Firewall.AddRuleModal.form :=
  Firewall.AddRuleModal.mkForm "allow" "in" "443" "tcp" "10.0.0.0/8" "".

(** The request the add-rule form sends for [https_form]. *)
Definition https_request : Http.request :=
  firewallApi.addUfwRule
    [("action", Js.Str "allow"); ("direction", Js.Str "in"); ("port", Js.Str "443");
     ("protocol", Js.Str "tcp"); ("from_ip", Js.Str "10.0.0.0/8");
     ("comment", Js.Undefined)].

(** A rule object in the shape the interface description gives. *)
Definition neutral_rule : gmap string Js.value :=
  <["id" := Js.Str "1"]> (<["action" := Js.Str "allow"]> (<["direction" := Js.Str "in"]>
  (<["port" := Js.Str "443"]> (<["protocol" := Js.Str "tcp"]>
  (<["source" := Js.Str "10.0.0.0/8"]> (<["comment" := Js.Str "web"]> ∅)))))).

(** The same rule with the address under the property the table reads. *)
Definition from_rule : gmap string Js.value :=
  <["from" := Js.Str "10.0.0.0/8"]> (delete "source" neutral_rule).

(** The page once iptables has been selected and its rules have loaded. *)
Definition iptables_page_data : Firewall.data :=
  Firewall.mkData (Some ["ufw"; "iptables"]) (Js.Str "ufw")
                  (Some [Firewall.mkStatus "ufw" true true])
                  None false
                  (Some [<["id" := Js.Str "INPUT-3"]> (<["action" := Js.Str "deny"]> ∅)]).

Definition ufw_page_data : Firewall.data :=
  Firewall.mkData (Some ["ufw"; "iptables"]) (Js.Str "ufw")
                  (Some [Firewall.mkStatus "ufw" true false])
                  (Some [neutral_rule]) false None.

(** A listening socket on loopback that the server has flagged public. *)
Definition flagged_loopback : Ports.PortInfo :=
  Ports.mkPort 5432 "tcp" (Some "127.0.0.1") None (Some "postgres") None (Some 812)
               (Some "lo") (Some true) (Some "LISTEN").

Definition plain_loopback : Ports.PortInfo :=
  Ports.mkPort 5432 "tcp" (Some "127.0.0.1") None (Some "postgres") None (Some 812)
               (Some "lo") None (Some "LISTEN").

Definition any_interface : Ports.PortInfo :=
  Ports.mkPort 22 "tcp" (Some "0.0.0.0") None (Some "sshd") None (Some 640)
               (Some "all") None (Some "LISTEN").

Definition admin_session : Users.currentUser := Users.mkCurrent 1 "admin".
Definition admin_row : Users.user := Users.mkUser (Js.Num 1) "admin".
Definition other_row : Users.user := Users.mkUser (Js.Num 2) "operator".

Definition admin_account : authStore.User :=
  authStore.mkUser 1 "admin" "admin@example.com" "admin" None.

(** A server that accepts the credentials and then refuses the user-info
    request with status 401. *)
Definition half_server : authStore.server :=
  authStore.mkServer (fun _ _ => authStore.Fulfilled "t0k3n")
                     (fun _ => authStore.Rejected (Some 401)).

(** A server that answers both requests. *)
Definition good_server : authStore.server :=
  authStore.mkServer (fun _ _ => authStore.Fulfilled "t0k3n")
                     (fun _ => authStore.Fulfilled admin_account).

(** A server that refuses the credentials. *)
Definition strict_server : authStore.server :=
  authStore.mkServer (fun _ _ => authStore.Rejected (Some 401))
                     (fun _ => authStore.Fulfilled admin_account).

Definition signed_out : authStore.world :=
  authStore.mkWorld authStore.initialState None.

(** A host with none of the four tools installed. *)
Definition bare_host : Core.host :=
  Core.mkHost (fun _ => false) (fun _ => false) (fun _ => false).

(** A host with iptables and nftables working and firewalld installed but
    its daemon down. *)
Definition mixed_host : Core.host :=
  Core.mkHost (fun b => negb (bool_decide (b = ufw)))
              (fun _ => true)
              (fun _ => false).

Definition allow_https : Core.RuleBody :=
  Core.mkBody Core.allow Core.dir_in Core.tcp "443" "10.0.0.0/8" None.

Definition allow_ssh : Core.RuleBody :=
  Core.mkBody Core.allow Core.dir_in Core.tcp "22" "any" None.

Definition deny_telnet : Core.RuleBody :=
  Core.mkBody Core.deny Core.dir_in Core.tcp "23" "any" (Some "legacy").

Definition two_rules : Core.world :=
  Core.mkWorld (fun b => if decide (b = ufw) then [allow_ssh; deny_telnet] else []) [].

(** Two adds against ufw and one against nftables, on top of the two
    rules ufw already has. *)
Definition three_adds : list (FirewallBackend * Coordinator.Operation) :=
  [(ufw, Coordinator.OpAdd allow_https);
   (nftables, Coordinator.OpAdd allow_ssh);
   (ufw, Coordinator.OpAdd deny_telnet)].

Definition busy_start : Coordinator.system :=
  Coordinator.start (Core.ruleset two_rules) (fun _ => true) three_adds.

(** An interleaving in which call 2 keeps asking for the lock that call 0
    holds. *)
Definition interleaving : list nat :=
  [0; 2; 1; 0; 2; 1; 0; 2; 0; 1; 0; 2; 1; 2; 1; 2; 2; 2; 2]%nat.

(** A udp socket as the interface view hands it over, under eth0. *)
Definition dns_on_eth0 : Ports.PortInfo :=
  Ports.withInterface
    (Ports.mkPort 53 "udp" (Some "192.168.1.10") None (Some "named") None (Some 411)
                  None None None)
    "eth0".

Definition host_interfaces : list Ports.BlockPortModal.NetworkInterface :=
  [Ports.BlockPortModal.mkInterface "lo" (Some "UNKNOWN");
   Ports.BlockPortModal.mkInterface "eth0" (Some "UP");
   Ports.BlockPortModal.mkInterface "docker0" None].

Definition operator_account : authStore.User :=
  authStore.mkUser 2 "olga" "olga@example.com" "operator" None.

(** A server that hands out the token n3w and tells the user by the
    Authorization header of the user-info request. *)
Definition two_user_server : authStore.server :=
  authStore.mkServer
    (fun _ _ => authStore.Fulfilled "n3w")
    (fun h => if String.eqb h "Bearer 0ld" then authStore.Fulfilled admin_account
              else authStore.Fulfilled operator_account).

(** The session of the administrator, as a reload would restore it. *)
Definition admin_signed_in : authStore.world :=
  authStore.mkWorld (authStore.mkAuth (Some "0ld") (Some admin_account) true)
                    (Some "Bearer 0ld").

Definition new_user_form : Users.UserModal.form :=
  Users.UserModal.mkForm "olga" "" "s3cret" "operator" true.

Definition rename_form : Users.UserModal.form :=
  Users.UserModal.mkForm "olga2" "olga@example.com" "" "operator" true.

End Samples.

(** * Properties *)

(** Settle a decidable closed proposition by evaluating its decision. *)
Ltac by_compute := apply (bool_decide_unpack _); vm_compute; exact I.

(** Find an element in a list written out. *)
Ltac by_elem :=
  repeat first [ apply list_elem_of_here | apply list_elem_of_further ].

(** ** The Firewall page *)

Module FirewallFacts.
Import Http Firewall.

Lemma handleSubmit_sent b f r :
  r ∈ sent (AddRuleModal.handleSubmit b f) ->
  url r = "/firewall/ufw/rules" /\ meth r = POST.
Proof.
  unfold AddRuleModal.handleSubmit.
  destruct (String.eqb (AddRuleModal.port f) ""); simpl.
  - intros H. apply elem_of_nil in H. contradiction.
  - intros H. apply list_elem_of_singleton in H. subst r. split; reflexivity.
Qed.

Lemma issue_url b m r :
  r ∈ issue b m ->
  url r = "/firewall/ufw/rules" \/ url r = "/firewall/ufw/enable"
  \/ url r = "/firewall/ufw/disable".
Proof.
  destruct m as [f| |]; simpl; intros H.
  - left. exact (proj1 (handleSubmit_sent _ _ _ H)).
  - apply list_elem_of_singleton in H. subst r. right; left; reflexivity.
  - apply list_elem_of_singleton in H. subst r. right; right; reflexivity.
Qed.

Lemma ufwControls_selected s d c :
  c ∈ ufwControls s d -> selectedBackend s = ufw.
Proof.
  unfold ufwControls. destruct (ufwStatus d) as [u|]; [|intros H; inversion H].
  destruct (bool_decide (selectedBackend s = ufw)) eqn:E; simpl.
  - intros _. apply bool_decide_eq_true in E. exact E.
  - intros H. inversion H.
Qed.

(** The buttons that enable, disable and open the add-rule form appear
    nowhere but in the card shown for ufw. *)
Lemma mutating_button_in_ufwControls s d c :
  c ∈ controls s d ->
  c = EnableButton \/ c = DisableButton \/ c = AddRuleButton ->
  c ∈ ufwControls s d.
Proof.
  unfold controls. rewrite !elem_of_app. intros [H|[H|[H|H]]] Hc; [|exact H| |].
  - apply list_elem_of_fmap in H as (b & -> & _). destruct Hc as [?|[?|?]]; discriminate.
  - unfold rulesTable in H. destruct (rulesLoading d); [inversion H|].
    destruct (rules s d); [|inversion H].
    apply list_elem_of_fmap in H as (x & -> & _). destruct Hc as [?|[?|?]]; discriminate.
  - destruct (addRuleOpen s); [|inversion H].
    apply list_elem_of_singleton in H. subst c. destruct Hc as [?|[?|?]]; discriminate.
Qed.

(** C1, as stated, fails: an add-rule submitted while iptables is the
    selected backend is posted to the ufw endpoint. *)
Lemma add_rule_for_iptables_posts_to_ufw :
  issue iptables (AddRule Samples.https_form)
  = [firewallApi.addUfwRule
       [("action", Js.Str "allow"); ("direction", Js.Str "in"); ("port", Js.Str "443");
        ("protocol", Js.Str "tcp"); ("from_ip", Js.Str "10.0.0.0/8");
        ("comment", Js.Undefined)]]
  /\ firewallApi.endpoint_of
       (firewallApi.addUfwRule
          [("action", Js.Str "allow"); ("direction", Js.Str "in"); ("port", Js.Str "443");
           ("protocol", Js.Str "tcp"); ("from_ip", Js.Str "10.0.0.0/8");
           ("comment", Js.Undefined)]) = Some ufw
  /\ ~ (forall b m r, r ∈ issue b m -> firewallApi.endpoint_of r = Some b).
Proof.
  split; [reflexivity|]. split; [reflexivity|].
  intros H.
  specialize (H iptables (AddRule Samples.https_form) _ (list_elem_of_here _ _)).
  vm_compute in H. discriminate H.
Qed.

(** C1, amended: every add-rule, enable and disable request of the page
    addresses the ufw endpoint, whichever backend is selected and whichever
    backend the add-rule form was given; the enable, disable and Add Rule
    buttons are rendered only while ufw is the selected backend, so an
    enable or disable issued from a rendered button does go to the selected
    backend's endpoint. *)
Theorem mutations_address_ufw :
  (forall b m r, r ∈ issue b m -> firewallApi.endpoint_of r = Some ufw)
  /\ (forall s d c, c ∈ controls s d ->
        c = EnableButton \/ c = DisableButton \/ c = AddRuleButton ->
        selectedBackend s = ufw)
  /\ (forall s d c f r, c ∈ controls s d ->
        c = EnableButton \/ c = DisableButton ->
        r ∈ sent (click c f s).2 ->
        firewallApi.endpoint_of r = Some (selectedBackend s)).
Proof.
  split; [|split].
  - intros b m r H. apply issue_url in H. unfold firewallApi.endpoint_of.
    destruct H as [->|[->| ->]]; reflexivity.
  - intros s d c Hin Hc. eapply ufwControls_selected.
    eapply mutating_button_in_ufwControls; eauto.
  - intros s d c f r Hin Hc Hr.
    assert (selectedBackend s = ufw) as ->.
    { eapply ufwControls_selected. eapply mutating_button_in_ufwControls; eauto.
      destruct Hc; auto. }
    destruct Hc as [-> | ->]; simpl in Hr;
      apply list_elem_of_singleton in Hr; subst r; reflexivity.
Qed.

Lemma mutations_address_ufw_witness :
  firewallApi.endpoint_of firewallApi.enableUfw = Some (selectedBackend initial).
Proof.
  apply (proj2 (proj2 mutations_address_ufw) initial Samples.ufw_page_data
           EnableButton Samples.https_form).
  - by_compute.
  - left. reflexivity.
  - by_compute.
Defined.

(** The delete button of a row is shown for the iptables listing too, and
    its request addresses ufw all the same. *)
Lemma delete_addresses_ufw ruleId :
  firewallApi.endpoint_of (deleteRuleMutation_mutationFn ruleId) = Some ufw.
Proof. reflexivity. Qed.

Example delete_of_iptables_row :
  DeleteButton (Js.Str "INPUT-3") ∈ controls (mkState iptables false) Samples.iptables_page_data
  /\ sent (click (DeleteButton (Js.Str "INPUT-3")) Samples.https_form
                 (mkState iptables false)).2
     = [mkRequest DELETE "/firewall/ufw/rules/INPUT-3" []].
Proof. split; [by_compute | reflexivity]. Qed.

(** *** The rules table *)

Lemma get_agree (o o' : gmap string Js.value) k :
  o !! k = o' !! k -> Js.get o k = Js.get o' k.
Proof. unfold Js.get. intros ->. reflexivity. Qed.

(** C7, as stated, fails: for a rule in the shape
    {id, action, direction, port, protocol, source, comment} the table
    shows no source address, and it shows one as soon as the address is
    under [from]. *)
Lemma source_property_not_shown :
  Forall (fun k => is_Some (Samples.neutral_rule !! k)) neutral_shape
  /\ Js.get Samples.neutral_rule "source" = Js.Str "10.0.0.0/8"
  /\ (cell_from <$> renderRow Samples.neutral_rule) = Some (Js.Str "Anywhere")
  /\ (cell_from <$> renderRow Samples.from_rule) = Some (Js.Str "10.0.0.0/8")
  /\ Forall (fun k => Samples.from_rule !! k = Samples.neutral_rule !! k)
            ["id"; "action"; "direction"; "port"; "protocol"; "comment"].
Proof.
  split; [repeat (constructor; [by_compute|]); constructor|].
  split; [vm_compute; reflexivity|]. split; [vm_compute; reflexivity|].
  split; [vm_compute; reflexivity|].
  repeat constructor.
Qed.

(** C7, amended: a row of the rules table is determined by the properties
    id, action, direction, port, app, to, from and protocol of the rule
    object; the source address shown is the property [from], with
    Anywhere in its place when it is missing or empty. The properties
    [source] and [comment] are not read. *)
Theorem rules_table_reads_from (o o' : gmap string Js.value) :
  (forall k, k ∈ consumed -> o !! k = o' !! k) ->
  renderRow o = renderRow o'
  /\ (forall r, renderRow o = Some r ->
        cell_from r = Js.or (Js.get o "from") (Js.Str "Anywhere"))
  /\ ("source" ∉ consumed) /\ ("comment" ∉ consumed).
Proof.
  intros H.
  assert (forall k, k ∈ consumed -> Js.get o k = Js.get o' k) as G.
  { intros k Hk. apply get_agree, H, Hk. }
  split; [|split].
  - unfold renderRow.
    rewrite (G "id"), (G "action"), (G "direction"), (G "port"), (G "app"),
      (G "to"), (G "from"), (G "protocol") by (unfold consumed; set_solver).
    reflexivity.
  - intros r. unfold renderRow.
    destruct (actionText (Js.get o "action")); simpl; [|discriminate].
    intros E. injection E as <-. reflexivity.
  - split; by_compute.
Qed.

Lemma rules_table_reads_from_witness :
  renderRow Samples.neutral_rule
  = renderRow (<["source" := Js.Str "192.168.1.0/24"]> Samples.neutral_rule)
  /\ (forall r, renderRow Samples.neutral_rule = Some r ->
        cell_from r = Js.or (Js.get Samples.neutral_rule "from") (Js.Str "Anywhere"))
  /\ ("source" ∉ consumed) /\ ("comment" ∉ consumed).
Proof.
  apply (rules_table_reads_from Samples.neutral_rule
           (<["source" := Js.Str "192.168.1.0/24"]> Samples.neutral_rule)).
  intros k Hk. unfold consumed in Hk.
  repeat (apply elem_of_cons in Hk as [-> | Hk]); try (vm_compute; reflexivity).
  apply elem_of_nil in Hk. contradiction.
Defined.

End FirewallFacts.

(** ** The Ports page *)

Module PortsFacts.
Import Ports.

Lemma wildcard_cases (a : string) :
  bool_decide (a ∈ wildcards)
  = (bool_decide (a = "0.0.0.0") || bool_decide (a = "::") || bool_decide (a = "*"))%bool.
Proof.
  unfold wildcards.
  destruct (decide (a = "0.0.0.0")) as [->|H1]; [reflexivity|].
  destruct (decide (a = "::")) as [->|H2]; [reflexivity|].
  destruct (decide (a = "*")) as [->|H3]; [reflexivity|].
  rewrite !bool_decide_eq_false_2; try assumption; [reflexivity|].
  rewrite !elem_of_cons, elem_of_nil. tauto.
Qed.

Lemma address_is_Some p a s :
  address p = Some a -> address_is p s = bool_decide (a = s).
Proof.
  unfold address_is. intros ->. apply bool_decide_ext. split; congruence.
Qed.

Lemma address_is_None p s : address p = None -> address_is p s = false.
Proof. unfold address_is. intros ->. reflexivity. Qed.

Lemma flag_set (o : option bool) : flag o = bool_decide (o = Some true).
Proof. destruct o as [[|]|]; reflexivity. Qed.

(** The filter predicate is the disjunction the description words. *)
Lemma publicFilter_unfold p :
  publicFilter p
  = ((match address p with
      | Some a => bool_decide (a ∈ wildcards)
      | None => false
      end) || bool_decide (is_public p = Some true))%bool.
Proof.
  unfold publicFilter. rewrite flag_set.
  destruct (address p) as [a|] eqn:E.
  - rewrite !(address_is_Some p a) by exact E. rewrite wildcard_cases. reflexivity.
  - rewrite !address_is_None by exact E. reflexivity.
Qed.

Lemma addressClass_publicFilter p :
  addressClass p = if publicFilter p then "text-yellow-400" else "text-dark-300".
Proof. reflexivity. Qed.

Lemma public_count l :
  length (filter (fun p => publicFilter p = true) l) = count_public l.
Proof.
  induction l as [|p l IH]; [reflexivity|].
  rewrite filter_cons. simpl count_public. rewrite <- publicFilter_unfold, <- IH.
  destruct (decide (publicFilter p = true)) as [E|E].
  - rewrite E. reflexivity.
  - apply not_true_is_false in E. rewrite E. reflexivity.
Qed.

(** C2, as stated, fails: an entry bound to 127.0.0.1 whose [is_public]
    flag is set passes the filter, is counted and is highlighted. *)
Lemma flagged_loopback_counts_as_public :
  address Samples.flagged_loopback = Some "127.0.0.1"
  /\ publicFilter Samples.flagged_loopback = true
  /\ addressClass Samples.flagged_loopback = "text-yellow-400"
  /\ public (stats (Some [Samples.flagged_loopback])) = 1%nat.
Proof. repeat split. Qed.

(** C2, amended: a bind address of 0.0.0.0, :: or * is classified as
    public; a bind address of 127.0.0.1 is classified as not public unless
    the entry's [is_public] flag is set; and for every list of listening
    ports the count of public ports is the number of entries whose address
    is one of the three wildcard forms or whose [is_public] flag is set. *)
Theorem public_classification (p : PortInfo) (l : list PortInfo) :
  (forall a, address p = Some a -> a ∈ wildcards ->
     publicFilter p = true /\ addressClass p = "text-yellow-400")
  /\ (address p = Some "127.0.0.1" -> is_public p <> Some true ->
      publicFilter p = false /\ addressClass p = "text-dark-300")
  /\ public (stats (Some l)) = count_public l.
Proof.
  split; [|split].
  - intros a Ha Hw. rewrite addressClass_publicFilter, publicFilter_unfold, Ha.
    rewrite bool_decide_eq_true_2 by exact Hw. split; reflexivity.
  - intros Ha Hf. rewrite addressClass_publicFilter, publicFilter_unfold, Ha.
    rewrite (bool_decide_eq_false_2 (is_public p = Some true)) by exact Hf.
    split; reflexivity.
  - simpl. apply public_count.
Qed.

Lemma public_classification_witness :
  (publicFilter Samples.any_interface = true
   /\ addressClass Samples.any_interface = "text-yellow-400")
  /\ (publicFilter Samples.plain_loopback = false
      /\ addressClass Samples.plain_loopback = "text-dark-300")
  /\ public (stats (Some [Samples.any_interface; Samples.plain_loopback;
                          Samples.flagged_loopback])) = 2%nat.
Proof.
  split; [|split].
  - apply (proj1 (public_classification Samples.any_interface []) "0.0.0.0");
      [reflexivity | by_compute].
  - apply (proj1 (proj2 (public_classification Samples.plain_loopback [])));
      [reflexivity | discriminate].
  - apply (proj2 (proj2 (public_classification Samples.any_interface
             [Samples.any_interface; Samples.plain_loopback; Samples.flagged_loopback]))).
Defined.

End PortsFacts.

(** ** The Users page *)

Module UsersFacts.
Import Http Users.

(** C9: for a row whose id is the logged-in user's id the delete handler
    shows an error and sends nothing, whatever the confirm dialog would
    answer, and the row's delete button is disabled. *)
Theorem own_account_not_deleted (c : currentUser) (answer isPending : bool) (u : user) :
  id u = Js.Num (cu_id c) ->
  handleDelete (Some c) answer u = [ToastError "You cannot delete your own account"]
  /\ requests (handleDelete (Some c) answer u) = []
  /\ deleteDisabled (Some c) isPending u = true.
Proof.
  intros H. unfold handleDelete, deleteDisabled. simpl currentId.
  rewrite decide_True by exact H.
  rewrite bool_decide_eq_true_2 by exact H.
  repeat split.
Qed.

Lemma own_account_not_deleted_witness :
  handleDelete (Some Samples.admin_session) true Samples.admin_row
  = [ToastError "You cannot delete your own account"]
  /\ requests (handleDelete (Some Samples.admin_session) true Samples.admin_row) = []
  /\ deleteDisabled (Some Samples.admin_session) false Samples.admin_row = true.
Proof.
  apply (own_account_not_deleted Samples.admin_session true false Samples.admin_row).
  reflexivity.
Defined.

(** The handler is not inert: another user's row, once confirmed, sends
    the delete request for that user. *)
Lemma other_account_deleted :
  requests (handleDelete (Some Samples.admin_session) true Samples.other_row)
  = [mkRequest DELETE "/users/2" []].
Proof. vm_compute. reflexivity. Qed.

(** No delete request of the handler ever names the logged-in user. *)
Lemma no_request_for_self (cu : option currentUser) (answer : bool) (u : user) r :
  r ∈ requests (handleDelete cu answer u) ->
  r = usersApi.delete (id u) /\ id u <> currentId cu.
Proof.
  unfold handleDelete. destruct (decide (id u = currentId cu)) as [E|E]; simpl.
  - intros H. apply elem_of_nil in H. contradiction.
  - destruct answer; simpl; intros H.
    + apply list_elem_of_singleton in H. subst r. split; [reflexivity | exact E].
    + apply elem_of_nil in H. contradiction.
Qed.

End UsersFacts.

(** ** Routing *)

Module AppFacts.
Import App.

(** C8: at a location the /login route does not match, a visitor who is
    not authenticated is rendered a redirect to /login, and an
    authenticated one is rendered the layout around the page of the
    location; with the matcher that takes a pattern literally, each of the
    seven declared locations shows its own page when authenticated and the
    redirect when not. *)
Theorem protected_area (matchPath : string -> string -> bool) (pathname : string) :
  matchPath "/login" pathname = false ->
  App matchPath pathname false = Navigate "/login" true
  /\ App matchPath pathname true = LayoutElement (innerRoutes matchPath pathname)
  /\ Forall (fun r => App exactPath (fst r) true = LayoutElement (Some (snd r))
                      /\ App exactPath (fst r) false = Navigate "/login" true) pages.
Proof.
  intros H. unfold App. rewrite H. split; [reflexivity|]. split; [reflexivity|].
  repeat constructor.
Qed.

Lemma protected_area_witness :
  App exactPath "/firewall" false = Navigate "/login" true
  /\ App exactPath "/firewall" true = LayoutElement (innerRoutes exactPath "/firewall")
  /\ Forall (fun r => App exactPath (fst r) true = LayoutElement (Some (snd r))
                      /\ App exactPath (fst r) false = Navigate "/login" true) pages.
Proof. apply (protected_area exactPath "/firewall"). reflexivity. Defined.

(** The login route itself is shown to everyone. *)
Lemma login_route_open (matchPath : string -> string -> bool) pathname auth :
  matchPath "/login" pathname = true -> App matchPath pathname auth = LoginElement.
Proof. intros H. unfold App. rewrite H. reflexivity. Qed.

End AppFacts.

(** ** The authentication store *)

Module authStoreFacts.
Import authStore.

Lemma login_after_post srv username password w tok :
  post_login srv username password = Fulfilled tok ->
  login srv username password w
  = match get_me srv (requestHeader w (bearer tok)) with
    | Rejected e => (mkWorld (store w) (Some (bearer tok)), Thrown e)
    | Fulfilled userData =>
        (mkWorld (mkAuth (Some tok) (Some userData) true) (Some (bearer tok)), Returned)
    end.
Proof. intros E. unfold login. rewrite E. reflexivity. Qed.

(** C10: [login] writes the store only after both requests have
    succeeded. A refused login request leaves everything as it was; a
    refused user-info request leaves token, user and isAuthenticated as
    they were; when both succeed the three are set together. *)
Theorem login_atomic (srv : server) (username password : string) (w : world) :
  (forall e, post_login srv username password = Rejected e ->
     login srv username password w = (w, Thrown e))
  /\ (forall access_token e,
        post_login srv username password = Fulfilled access_token ->
        get_me srv (requestHeader w (bearer access_token)) = Rejected e ->
        store (login srv username password w).1 = store w
        /\ (login srv username password w).2 = Thrown e)
  /\ (forall access_token userData,
        post_login srv username password = Fulfilled access_token ->
        get_me srv (requestHeader w (bearer access_token)) = Fulfilled userData ->
        store (login srv username password w).1
        = mkAuth (Some access_token) (Some userData) true
        /\ (login srv username password w).2 = Returned)
  /\ (store (login srv username password w).1 <> store w ->
      exists access_token userData,
        post_login srv username password = Fulfilled access_token
        /\ get_me srv (requestHeader w (bearer access_token)) = Fulfilled userData).
Proof.
  split; [|split; [|split]].
  - intros e E. unfold login. rewrite E. reflexivity.
  - intros tok e E G. rewrite (login_after_post _ _ _ _ _ E), G. split; reflexivity.
  - intros tok u E G. rewrite (login_after_post _ _ _ _ _ E), G. split; reflexivity.
  - intros H.
    destruct (post_login srv username password) as [tok|e] eqn:E.
    + destruct (get_me srv (requestHeader w (bearer tok))) as [u|e] eqn:G.
      * exists tok, u. split; [reflexivity | exact G].
      * contradiction H. rewrite (login_after_post _ _ _ _ _ E), G. reflexivity.
    + contradiction H. unfold login. rewrite E. reflexivity.
Qed.

Lemma login_atomic_witness :
  store (login Samples.half_server "admin" "secret" Samples.signed_out).1
  = store Samples.signed_out
  /\ (login Samples.half_server "admin" "secret" Samples.signed_out).2
     = Thrown (Some 401).
Proof.
  apply (proj1 (proj2 (login_atomic Samples.half_server "admin" "secret"
                         Samples.signed_out)) "t0k3n" (Some 401));
    reflexivity.
Defined.

(** The three outcomes on concrete servers. *)
Example login_refused :
  login Samples.strict_server "admin" "wrong" Samples.signed_out
  = (Samples.signed_out, Thrown (Some 401)).
Proof. reflexivity. Qed.

Example login_succeeds :
  login Samples.good_server "admin" "secret" Samples.signed_out
  = (mkWorld (mkAuth (Some "t0k3n") (Some Samples.admin_account) true)
             (Some "Bearer t0k3n"), Returned).
Proof. reflexivity. Qed.

(** What a failed user-info request does leave behind is the default
    header of the axios instance, outside the store. *)
Example login_half_way :
  login Samples.half_server "admin" "secret" Samples.signed_out
  = (mkWorld initialState (Some "Bearer t0k3n"), Thrown (Some 401)).
Proof. reflexivity. Qed.

End authStoreFacts.

(** ** Backend probe and adapters *)

Module CoreFacts.
Import Core.

Lemma available_usable h b :
  b ∈ available (detectBackends h) <-> usable h b = true.
Proof.
  change (available (detectBackends h))
    with (List.filter (usable h) [ufw; iptables; firewalld; nftables]).
  rewrite list_elem_of_In, filter_In. simpl.
  split; [tauto|]. intros H. split; [|exact H]. destruct b; tauto.
Qed.

(** A backend that fails one check is not available, whatever else is
    installed. *)
Lemma failed_check_unavailable h b :
  binaryPresent h b = false \/ versionQueryOk h b = false
  \/ (daemonBacked b = true /\ serviceReachable h b = false) ->
  b ∉ available (detectBackends h).
Proof.
  rewrite available_usable. unfold usable.
  intros [H|[H|[H1 H2]]].
  - rewrite H. discriminate.
  - rewrite H. destruct (binaryPresent h b); discriminate.
  - rewrite H1, H2. destruct (binaryPresent h b), (versionQueryOk h b); discriminate.
Qed.

Lemma preferred_best h b :
  preferred (detectBackends h) = Some b
  <-> usable h b = true /\ forall b', usable h b' = true -> (rank b <= rank b')%nat.
Proof.
  unfold detectBackends, priority. simpl.
  destruct (usable h ufw) eqn:U, (usable h firewalld) eqn:F,
           (usable h nftables) eqn:N, (usable h iptables) eqn:I;
    (split;
     [ intros E; try discriminate E; injection E as <-; (split; [assumption|]);
       intros b' Hb'; destruct b'; simpl; try lia; congruence
     | intros [H1 H2];
       pose proof (H2 ufw) as Hu; pose proof (H2 firewalld) as Hf;
       pose proof (H2 nftables) as Hn; pose proof (H2 iptables) as Hi;
       destruct b; simpl in *; try reflexivity; try congruence; exfalso;
       first [ specialize (Hu U); lia | specialize (Hf F); lia
             | specialize (Hn N); lia | specialize (Hi I); lia ] ]).
Qed.

Lemma preferred_none h :
  preferred (detectBackends h) = None <-> forall b, usable h b = false.
Proof.
  unfold detectBackends, priority. simpl.
  destruct (usable h ufw) eqn:U, (usable h firewalld) eqn:F,
           (usable h nftables) eqn:N, (usable h iptables) eqn:I;
    (split;
     [ intros E; try discriminate E; intros b; destruct b; assumption
     | intros H; try reflexivity;
       first [ specialize (H ufw); congruence | specialize (H firewalld); congruence
             | specialize (H nftables); congruence | specialize (H iptables); congruence ] ]).
Qed.

(** C3: the preferred backend of a probe is available and no available
    backend ranks before it in the order ufw > firewalld > nftables >
    iptables; at most one backend is preferred, one is as soon as any is
    available, and with none available the probe answers with no preferred
    backend, which the page shows as None detected. *)
Theorem preferred_backend (h : host) :
  (forall b, preferred (detectBackends h) = Some b
     <-> b ∈ available (detectBackends h)
         /\ forall b', b' ∈ available (detectBackends h) -> (rank b <= rank b')%nat)
  /\ (forall b b', isPreferred (detectBackends h) b = true ->
        isPreferred (detectBackends h) b' = true -> b = b')
  /\ (forall a, a ∈ available (detectBackends h) ->
        exists b, isPreferred (detectBackends h) b = true
                  /\ b ∈ available (detectBackends h))
  /\ (available (detectBackends h) = [] <-> preferred (detectBackends h) = None)
  /\ (forall d, Firewall.backends_preferred d = (backendsJson (detectBackends h)).2 ->
        preferred (detectBackends h) = None ->
        Firewall.preferredLabel d = Js.Str "None detected").
Proof.
  split; [|split; [|split; [|split]]].
  - intros b. rewrite preferred_best, available_usable.
    split; intros [H1 H2]; (split; [exact H1|]); intros b' Hb'; apply H2.
    + apply available_usable, Hb'.
    + apply available_usable, Hb'.
  - unfold isPreferred. intros b b' H1 H2.
    apply bool_decide_eq_true in H1, H2. congruence.
  - intros a Ha. destruct (preferred (detectBackends h)) as [b|] eqn:E.
    + exists b. split.
      * unfold isPreferred. rewrite E. apply bool_decide_eq_true. reflexivity.
      * apply available_usable. apply preferred_best in E. tauto.
    + apply available_usable in Ha. rewrite preferred_none in E.
      rewrite E in Ha. discriminate Ha.
  - rewrite preferred_none. split.
    + intros E b. destruct (usable h b) eqn:U; [|reflexivity].
      apply available_usable in U. rewrite E in U. apply elem_of_nil in U. contradiction.
    + intros H. destruct (available (detectBackends h)) as [|b l] eqn:E; [reflexivity|].
      assert (b ∈ available (detectBackends h)) as Hb by (rewrite E; left).
      apply available_usable in Hb. rewrite H in Hb. discriminate Hb.
  - intros d Hd E. unfold Firewall.preferredLabel. rewrite Hd. unfold backendsJson.
    rewrite E. reflexivity.
Qed.

Lemma preferred_backend_witness :
  nftables ∈ available (detectBackends Samples.mixed_host)
  /\ forall b', b' ∈ available (detectBackends Samples.mixed_host) ->
                (rank nftables <= rank b')%nat.
Proof.
  apply (proj1 (proj1 (preferred_backend Samples.mixed_host) nftables)).
  reflexivity.
Defined.

Example mixed_host_prefers_nftables :
  detectBackends Samples.mixed_host = mkProbe [iptables; nftables] (Some nftables).
Proof. reflexivity. Qed.

(** C6: on a host where none of the four binaries is present the probe
    finds no backend and prefers none, and [addRule] then fails with
    BackendUnavailable for every backend and rule, leaving the backend
    state and the record of Command Runner invocations as they were. *)
Theorem bare_host_add_unavailable (accepts : FirewallBackend -> RuleBody -> bool)
    (h : host) (b : FirewallBackend) (r : RuleBody) (w : world) :
  (forall b', binaryPresent h b' = false) ->
  detectBackends h = mkProbe [] None
  /\ addRule accepts (detectBackends h) b r w = (inl BackendUnavailable, w)
  /\ invocations (addRule accepts (detectBackends h) b r w).2 = invocations w.
Proof.
  intros H.
  assert (detectBackends h = mkProbe [] None) as E.
  { unfold detectBackends, priority, usable. simpl. rewrite !H. reflexivity. }
  rewrite E. repeat split.
Qed.

Lemma bare_host_add_unavailable_witness :
  detectBackends Samples.bare_host = mkProbe [] None
  /\ addRule (fun _ _ => true) (detectBackends Samples.bare_host) ufw
             Samples.allow_https Samples.two_rules
     = (inl BackendUnavailable, Samples.two_rules)
  /\ invocations (addRule (fun _ _ => true) (detectBackends Samples.bare_host) ufw
                          Samples.allow_https Samples.two_rules).2
     = invocations Samples.two_rules.
Proof.
  apply (bare_host_add_unavailable (fun _ _ => true) Samples.bare_host ufw
           Samples.allow_https Samples.two_rules).
  intros b'. reflexivity.
Defined.

(** On a host where the backend is available the same call does reach the
    Command Runner. *)
Example add_on_mixed_host :
  (addRule (fun _ _ => true) (detectBackends Samples.mixed_host) iptables
           Samples.allow_https Samples.two_rules).1
  = inr (mkRule "1" Samples.allow_https)
  /\ invocations (addRule (fun _ _ => true) (detectBackends Samples.mixed_host) iptables
                          Samples.allow_https Samples.two_rules).2
     = [(iptables, NativeAdd Samples.allow_https); (iptables, NativeList)].
Proof. split; vm_compute; reflexivity. Qed.

(** *** Deleting by identifier *)

Lemma position_None i l : position i l = None <-> i ∉ (id <$> l).
Proof.
  induction l as [|r l IH]; simpl.
  - split; [intros _ H; apply elem_of_nil in H; exact H | reflexivity].
  - rewrite not_elem_of_cons.
    destruct (String.eqb (id r) i) eqn:E.
    + apply String.eqb_eq in E. split; [discriminate|]. intros [H _]. congruence.
    + apply String.eqb_neq in E. rewrite fmap_None, IH. split.
      * intros H. split; [congruence | exact H].
      * intros [_ H]. exact H.
Qed.

Lemma position_Some i l k :
  position i l = Some k -> exists r, l !! k = Some r /\ id r = i.
Proof.
  revert k. induction l as [|r l IH]; simpl; intros k; [discriminate|].
  destruct (String.eqb (id r) i) eqn:E.
  - intros H. injection H as <-. apply String.eqb_eq in E. exists r. split; [reflexivity | exact E].
  - destruct (position i l) as [k'|]; simpl; [|discriminate].
    intros H. injection H as <-. apply (IH k'). reflexivity.
Qed.

(** C5: when the listing taken immediately before the delete shows no
    rule with the identifier, [deleteRule] fails with RuleNotFound and the
    ruleset of every backend is what it was (the Command Runner was asked
    for the listing only). *)
Theorem delete_unknown_id (b : FirewallBackend) (i : string) (w : world) :
  i ∉ (id <$> (listRules b w).1) ->
  (deleteRule b i w).1 = inl RuleNotFound
  /\ ruleset (deleteRule b i w).2 = ruleset w
  /\ invocations (deleteRule b i w).2 = invocations w ++ [(b, NativeList)].
Proof.
  intros H. apply position_None in H. unfold deleteRule. simpl in *.
  rewrite H. repeat split.
Qed.

Lemma delete_unknown_id_witness :
  (deleteRule ufw "7" Samples.two_rules).1 = inl RuleNotFound
  /\ ruleset (deleteRule ufw "7" Samples.two_rules).2 = ruleset Samples.two_rules
  /\ invocations (deleteRule ufw "7" Samples.two_rules).2
     = invocations Samples.two_rules ++ [(ufw, NativeList)].
Proof.
  apply (delete_unknown_id ufw "7" Samples.two_rules). by_compute.
Defined.

(** A listed identifier is deleted: the rule at its position goes and the
    others keep their order. *)
Lemma delete_known_id (b : FirewallBackend) (i : string) (w : world) k :
  position i (listRules b w).1 = Some k ->
  (deleteRule b i w).1 = inr tt
  /\ ruleset (deleteRule b i w).2 b = delete k (ruleset w b)
  /\ forall b', b' <> b -> ruleset (deleteRule b i w).2 b' = ruleset w b'.
Proof.
  intros H. unfold deleteRule. simpl in *. rewrite H. simpl.
  split; [reflexivity|]. split.
  - apply fn_lookup_insert.
  - intros b' Hb'. apply fn_lookup_insert_ne. congruence.
Qed.

Example delete_second_rule :
  (deleteRule ufw "2" Samples.two_rules).1 = inr tt
  /\ ruleset (deleteRule ufw "2" Samples.two_rules).2 ufw = [Samples.allow_ssh].
Proof. split; vm_compute; reflexivity. Qed.

End CoreFacts.

(** ** The coordinator's lock *)

Module CoordinatorFacts.
Import Core Coordinator.

Lemma lookup_move i c ph (cs : list call) j :
  cs !! i = Some c ->
  move i c ph cs !! j
  = if decide (j = i) then Some (mkCall (target c) (op c) ph) else cs !! j.
Proof.
  intros H. unfold move. destruct (decide (j = i)) as [->|N].
  - apply list_lookup_insert_eq. apply lookup_lt_is_Some. eauto.
  - apply list_lookup_insert_ne. congruence.
Qed.

Section WithToggle.

Variable directToggle : FirewallBackend -> bool.

Lemma step_transition i s s' :
  step directToggle i s = Some s' ->
  exists c ph, calls s !! i = Some c /\ transition i c s ph s'.
Proof.
  unfold step. destruct (calls s !! i) as [c|] eqn:L; simpl; [|discriminate].
  intros H. exists c.
  destruct (at_phase c) as [| |snapshot| |[k|]|o|o] eqn:P.
  - destruct (holder s (target c)) eqn:Hh; [discriminate|].
    injection H as <-. eexists. split; [reflexivity|]. by constructor.
  - destruct (op c) as [r|r| |] eqn:O; injection H as <-.
    + eexists. split; [reflexivity|]. by eapply t_load.
    + eexists. split; [reflexivity|].
      apply t_other; unfold inFlight; rewrite ?O, ?P; reflexivity.
    + unfold toggle. destruct (directToggle (target c));
        (eexists; split; [reflexivity|]);
        apply t_other; unfold inFlight; rewrite ?O, ?P; reflexivity.
    + unfold toggle. destruct (directToggle (target c));
        (eexists; split; [reflexivity|]);
        apply t_other; unfold inFlight; rewrite ?O, ?P; reflexivity.
  - destruct (op c) as [r|r| |] eqn:O; try discriminate H. injection H as <-.
    eexists. split; [reflexivity|]. by eapply t_store.
  - destruct (op c) as [r|r| |] eqn:O; try discriminate H. injection H as <-.
    eexists. split; [reflexivity|]. by eapply t_resolve.
  - destruct (op c) as [r|r| |] eqn:O; try discriminate H. injection H as <-.
    eexists. split; [reflexivity|].
    apply t_other; unfold inFlight; rewrite ?O, ?P; reflexivity.
  - destruct (op c) as [r|r| |] eqn:O; try discriminate H. injection H as <-.
    eexists. split; [reflexivity|].
    apply t_other; unfold inFlight; rewrite ?O, ?P; reflexivity.
  - destruct (op c); injection H as <-;
      (eexists; split; [reflexivity|]); by constructor.
  - destruct (op c); discriminate H.
Qed.

(** *** Mutual exclusion *)

Lemma owns_lock_step i s s' :
  owns_lock s -> step directToggle i s = Some s' -> owns_lock s'.
Proof.
  intros Inv H. apply step_transition in H as (c & ph & L & T).
  intros j c' L' F'.
  destruct T as [P Hfree | o P | r P O | snapshot r P O | r P O | ph rs en O F Hph];
    simpl in *; rewrite (lookup_move _ _ _ _ _ L) in L';
    destruct (decide (j = i)) as [->|N];
    try (injection L' as <-; simpl in * );
    try discriminate F'.
  - apply fn_lookup_insert.
  - pose proof (Inv j c' L' F') as Hj.
    destruct (decide (target c = target c')) as [E|E].
    + rewrite <- E in Hj. congruence.
    + rewrite fn_lookup_insert_ne by exact E. exact Hj.
  - pose proof (Inv j c' L' F') as Hj.
    assert (inFlight c = true) as Fc by (unfold inFlight; rewrite P; reflexivity).
    pose proof (Inv i c L Fc) as Hi.
    destruct (decide (target c = target c')) as [E|E].
    + rewrite E in Hi. congruence.
    + rewrite fn_lookup_insert_ne by exact E. exact Hj.
  - apply (Inv i c L). unfold inFlight. rewrite P. reflexivity.
  - apply (Inv j c' L' F').
  - apply (Inv i c L). unfold inFlight. rewrite P. reflexivity.
  - apply (Inv j c' L' F').
  - apply (Inv i c L). unfold inFlight. rewrite P. reflexivity.
  - apply (Inv j c' L' F').
  - apply (Inv i c L F).
  - apply (Inv j c' L' F').
Qed.

Lemma same_requests_step requests i s s' :
  same_requests requests s -> step directToggle i s = Some s' ->
  same_requests requests s'.
Proof.
  unfold same_requests. intros Inv H.
  apply step_transition in H as (c & ph & L & T).
  assert (calls s' = move i c ph (calls s)) as -> by (destruct T; reflexivity).
  unfold move. rewrite list_fmap_insert. simpl.
  rewrite list_insert_id; [exact Inv|].
  rewrite list_lookup_fmap, L. reflexivity.
Qed.

Lemma owns_lock_start rs en requests : owns_lock (start rs en requests).
Proof.
  intros i c L F. unfold start in L. simpl in L.
  rewrite list_lookup_fmap in L.
  destruct (requests !! i); simpl in L; [|discriminate].
  injection L as <-. discriminate F.
Qed.

Lemma reachable_owns_lock rs en requests s :
  reachable directToggle (start rs en requests) s -> owns_lock s.
Proof.
  induction 1 as [|s i s' _ IH Hstep].
  - apply owns_lock_start.
  - eapply owns_lock_step; eauto.
Qed.

Lemma reachable_same_requests rs en requests s :
  reachable directToggle (start rs en requests) s -> same_requests requests s.
Proof.
  induction 1 as [|s i s' _ IH Hstep].
  - unfold same_requests, start. simpl. rewrite <- list_fmap_compose.
    rewrite <- (list_fmap_id requests) at 2. apply list_fmap_ext.
    intros _ [b o] _. reflexivity.
  - eapply same_requests_step; eauto.
Qed.

(** *** No lost update *)

Lemma adds_move P b (cs : list call) i c ph :
  cs !! i = Some c ->
  (adds P b (move i c ph cs) + weight P b c
   = adds P b cs + weight P b (mkCall (target c) (op c) ph))%nat.
Proof.
  unfold move. revert i. induction cs as [|c0 cs IH]; intros [|i] L; simpl in *;
    try discriminate.
  - injection L as ->. lia.
  - specialize (IH i L). lia.
Qed.

Lemma if_false_and (x : bool) :
  (if (x && false)%bool then 1%nat else 0%nat) = 0%nat.
Proof. rewrite andb_false_r. reflexivity. Qed.

Lemma weight_same P b c ph :
  P (mkCall (target c) (op c) ph) = P c ->
  weight P b (mkCall (target c) (op c) ph) = weight P b c.
Proof. unfold weight. simpl. intros ->. reflexivity. Qed.

(** A step that leaves the rulesets alone and does not change whether
    the call's write has happened keeps the counts and memberships. *)
Lemma quiet_step rs i c ph s en hd :
  calls s !! i = Some c ->
  written ph = committed c ->
  (forall snapshot, ph = Loaded snapshot -> snapshot = rules s (target c)) ->
  data_invariant rs s ->
  data_invariant rs (mkSystem (rules s) en hd (move i c ph (calls s))).
Proof.
  intros L W Hload (Fr & Co & Ke & Pr). repeat split.
  - intros j c' snapshot L' P'. simpl in *. rewrite (lookup_move _ _ _ _ _ L) in L'.
    destruct (decide (j = i)) as [->|N].
    + injection L' as <-. simpl in *. apply Hload, P'.
    + eapply Fr; eauto.
  - intros b. simpl. specialize (Co b).
    pose proof (adds_move committed b _ _ _ ph L) as A.
    rewrite (weight_same committed b c ph) in A by exact W. lia.
  - exact Ke.
  - intros j c' r L' O' C'. simpl in *. rewrite (lookup_move _ _ _ _ _ L) in L'.
    destruct (decide (j = i)) as [->|N].
    + injection L' as <-. simpl in *. eapply (Pr i c r L O').
      rewrite <- W. exact C'.
    + eapply Pr; eauto.
Qed.

Lemma data_invariant_step rs i s s' :
  owns_lock s -> adds_only s -> data_invariant rs s ->
  step directToggle i s = Some s' -> data_invariant rs s'.
Proof.
  intros Own Only Inv H. apply step_transition in H as (c & ph & L & T).
  destruct T as [P Hfree | o P | r P O | snapshot r P O | r P O | ph rs' en O F Hph].
  - apply quiet_step; auto; [unfold committed; rewrite P; reflexivity | discriminate].
  - apply quiet_step; auto; [unfold committed; rewrite P; reflexivity | discriminate].
  - apply quiet_step; auto; [unfold committed; rewrite P; reflexivity|].
    intros snapshot E. injection E as <-. reflexivity.
  - destruct Inv as (Fr & Co & Ke & Pr).
    assert (snapshot = rules s (target c)) as -> by (eapply Fr; eauto).
    assert (inFlight c = true) as Fc by (unfold inFlight; rewrite P; reflexivity).
    repeat split.
    + intros j c' snapshot' L' P'. simpl in *. rewrite (lookup_move _ _ _ _ _ L) in L'.
      destruct (decide (j = i)) as [->|N].
      * injection L' as <-. discriminate P'.
      * assert (inFlight c' = true) as Fc' by (unfold inFlight; rewrite P'; reflexivity).
        destruct (decide (target c = target c')) as [E|E].
        -- pose proof (Own i c L Fc) as H1. pose proof (Own j c' L' Fc') as H2.
           rewrite E in H1. congruence.
        -- rewrite fn_lookup_insert_ne by exact E. eapply Fr; eauto.
    + intros b. simpl. specialize (Co b).
      pose proof (adds_move committed b _ _ _ Written L) as A.
      assert (weight committed b c = 0%nat) as W0.
      { unfold weight, committed. rewrite P. apply if_false_and. }
      assert (weight committed b (mkCall (target c) (op c) Written)
              = if bool_decide (target c = b) then 1%nat else 0%nat) as W1.
      { unfold weight, committed. simpl. rewrite O. simpl.
        rewrite !andb_true_r. reflexivity. }
      rewrite W0, W1 in A.
      destruct (decide (target c = b)) as [E|E].
      * rewrite bool_decide_eq_true_2 in A by exact E.
        rewrite <- E, fn_lookup_insert, length_app. simpl. rewrite E. lia.
      * rewrite bool_decide_eq_false_2 in A by exact E.
        rewrite fn_lookup_insert_ne by exact E. lia.
    + intros b r0 Hr0. simpl. destruct (decide (target c = b)) as [E|E].
      * rewrite <- E, fn_lookup_insert. apply elem_of_app. left. rewrite E.
        apply Ke, Hr0.
      * rewrite fn_lookup_insert_ne by exact E. apply Ke, Hr0.
    + intros j c' r' L' O' C'. simpl in *. rewrite (lookup_move _ _ _ _ _ L) in L'.
      destruct (decide (j = i)) as [->|N].
      * injection L' as <-. simpl in *. rewrite fn_lookup_insert.
        apply elem_of_app. right. rewrite O in O'. injection O' as ->. left.
      * destruct (decide (target c = target c')) as [E|E].
        -- rewrite <- E, fn_lookup_insert. apply elem_of_app. left. rewrite E.
           eapply Pr; eauto.
        -- rewrite fn_lookup_insert_ne by exact E. eapply Pr; eauto.
  - apply quiet_step; auto; [unfold committed; rewrite P; reflexivity | discriminate].
  - rewrite (Only i c L) in O. discriminate O.
Qed.

Lemma adds_only_requests requests s :
  Forall (fun r => isAdd (snd r) = true) requests ->
  same_requests requests s -> adds_only s.
Proof.
  intros Hall Same i c L. rewrite Forall_lookup in Hall.
  apply (Hall i (target c, op c)). rewrite <- Same, list_lookup_fmap, L. reflexivity.
Qed.

Lemma adds_start P b requests :
  (forall c, at_phase c = Waiting -> P c = false) ->
  adds P b ((fun r => mkCall (fst r) (snd r) Waiting) <$> requests) = 0%nat.
Proof.
  intros HP. induction requests as [|r l IH]; [reflexivity|].
  rewrite fmap_cons. cbn [adds]. rewrite IH. unfold weight.
  rewrite (HP (mkCall _ _ Waiting)) by reflexivity.
  rewrite andb_false_r. reflexivity.
Qed.

Lemma data_invariant_start rs en requests :
  data_invariant rs (start rs en requests).
Proof.
  repeat split.
  - intros i c snapshot L P. unfold start in L. simpl in L.
    rewrite list_lookup_fmap in L. destruct (requests !! i); simpl in L; [|discriminate].
    injection L as <-. discriminate P.
  - intros b. unfold start. simpl. rewrite adds_start; [lia|].
    intros c P. unfold committed. rewrite P. reflexivity.
  - intros b r Hr. exact Hr.
  - intros i c r L _ C. unfold start in L. simpl in L.
    rewrite list_lookup_fmap in L. destruct (requests !! i); simpl in L; [|discriminate].
    injection L as <-. discriminate C.
Qed.

Lemma reachable_data_invariant rs en requests s :
  Forall (fun r => isAdd (snd r) = true) requests ->
  reachable directToggle (start rs en requests) s -> data_invariant rs s.
Proof.
  intros Hall R. induction R as [|s i s' R IH Hstep].
  - apply data_invariant_start.
  - eapply data_invariant_step; eauto.
    + eapply reachable_owns_lock; eauto.
    + eapply adds_only_requests; eauto. eapply reachable_same_requests; eauto.
Qed.

(** Once every call has finished, the committed adds are the requests. *)
Lemma adds_finished b (cs : list call) :
  Forall (fun c => finished c = true) cs ->
  Forall (fun c => isAdd (op c) = true) cs ->
  adds committed b cs = requested b ((fun c => (target c, op c)) <$> cs).
Proof.
  unfold requested. induction cs as [|c cs IH]; intros Hf Ha; [reflexivity|].
  pose proof (Forall_inv Hf) as Hc. apply Forall_inv_tail in Hf.
  pose proof (Forall_inv Ha) as Ac. apply Forall_inv_tail in Ha.
  rewrite fmap_cons. cbn [adds]. rewrite IH by assumption. rewrite filter_cons. simpl.
  unfold weight, committed. rewrite Ac. unfold finished in Hc.
  destruct (at_phase c); try discriminate Hc. simpl. rewrite andb_true_r.
  destruct (decide (target c = b)) as [E|E].
  - rewrite bool_decide_eq_true_2 by exact E. reflexivity.
  - rewrite bool_decide_eq_false_2 by exact E. reflexivity.
Qed.

Lemma run_reachable s0 schedule s :
  reachable directToggle s0 s -> reachable directToggle s0 (run directToggle schedule s).
Proof.
  revert s. induction schedule as [|i rest IH]; intros s R; simpl; [exact R|].
  apply IH. destruct (step directToggle i s) as [s'|] eqn:E; simpl; [|exact R].
  eapply reach_step; eauto.
Qed.

(** *** Calls complete *)

Lemma lock_owned_step i s s' :
  lock_owned s -> step directToggle i s = Some s' -> lock_owned s'.
Proof.
  intros Inv H. apply step_transition in H as (c & ph & L & T).
  assert (forall b' k hd rs en,
             holder s b' = Some k -> holding ph = true ->
             (k = i -> inFlight c = true) ->
             exists c', calls (mkSystem rs en hd (move i c ph (calls s))) !! k = Some c'
                        /\ target c' = b' /\ inFlight c' = true) as Keep.
  { intros b' k hd rs en Hk Hph Hi. destruct (Inv b' k Hk) as (c' & L' & E' & F').
    simpl. rewrite (lookup_move _ _ _ _ _ L).
    destruct (decide (k = i)) as [->|N]; [|eauto].
    eexists. split; [reflexivity|]. simpl. split; [congruence | exact Hph]. }
  intros b' k Hk.
  destruct T as [P Hfree | o P | r P O | snapshot r P O | r P O | ph rs' en O F Hph];
    simpl in Hk.
  - destruct (decide (target c = b')) as [E|E].
    + rewrite <- E, fn_lookup_insert in Hk. injection Hk as <-.
      simpl. rewrite (lookup_move _ _ _ _ _ L), decide_True by reflexivity.
      eexists. split; [reflexivity|]. split; [exact E | reflexivity].
    + rewrite fn_lookup_insert_ne in Hk by exact E.
      destruct (Inv b' k Hk) as (c' & L' & E' & F').
      simpl. rewrite (lookup_move _ _ _ _ _ L).
      destruct (decide (k = i)) as [->|N]; [|eauto].
      rewrite L in L'. injection L' as <-. unfold inFlight in F'. rewrite P in F'.
      discriminate F'.
  - destruct (decide (target c = b')) as [E|E].
    + rewrite <- E, fn_lookup_insert in Hk. discriminate Hk.
    + rewrite fn_lookup_insert_ne in Hk by exact E.
      destruct (Inv b' k Hk) as (c' & L' & E' & F').
      simpl. rewrite (lookup_move _ _ _ _ _ L).
      destruct (decide (k = i)) as [->|N]; [|eauto].
      rewrite L in L'. injection L' as <-. congruence.
  - apply Keep; auto. intros _. unfold inFlight. rewrite P. reflexivity.
  - apply Keep; auto. intros _. unfold inFlight. rewrite P. reflexivity.
  - apply Keep; auto. intros _. unfold inFlight. rewrite P. reflexivity.
  - apply Keep; auto.
Qed.

Lemma well_phased_step i s s' :
  Forall (fun c => well_phased c = true) (calls s) ->
  step directToggle i s = Some s' ->
  Forall (fun c => well_phased c = true) (calls s').
Proof.
  intros Inv H. unfold step in H.
  destruct (calls s !! i) as [c|] eqn:L; simpl in H; [|discriminate].
  assert (forall ph rs en hd,
             well_phased (mkCall (target c) (op c) ph) = true ->
             Forall (fun c => well_phased c = true)
                    (calls (mkSystem rs en hd (move i c ph (calls s))))) as Keep.
  { intros ph rs en hd W. simpl. unfold move. apply Forall_insert; assumption. }
  unfold toggle in H.
  destruct (at_phase c) as [| |snapshot| |[k|]|o|o], (op c) eqn:O;
    try destruct (holder s (target c));
    try destruct (directToggle (target c));
    try discriminate H; injection H as <-; apply Keep;
    unfold well_phased; simpl; rewrite ?O; reflexivity.
Qed.

Lemma workload_move (cs : list call) i c ph :
  cs !! i = Some c ->
  (workload (move i c ph cs) + remaining (at_phase c)
   = workload cs + remaining ph)%nat.
Proof.
  unfold move, workload. revert i.
  induction cs as [|c0 cs IH]; intros [|i] L; simpl in *; try discriminate.
  - injection L as ->. lia.
  - specialize (IH i L). lia.
Qed.

(** Every step brings the process closer to completion. *)
Lemma step_decreases i s s' :
  step directToggle i s = Some s' ->
  (workload (calls s') < workload (calls s))%nat.
Proof.
  intros H. unfold step in H.
  destruct (calls s !! i) as [c|] eqn:L; simpl in H; [|discriminate].
  assert (forall ph rs en hd,
             (remaining ph < remaining (at_phase c))%nat ->
             (workload (calls (mkSystem rs en hd (move i c ph (calls s))))
              < workload (calls s))%nat) as Less.
  { intros ph rs en hd Hlt. simpl. pose proof (workload_move _ _ _ ph L). lia. }
  unfold toggle in H.
  destruct (at_phase c) as [| |snapshot| |[k|]|o|o], (op c);
    try destruct (holder s (target c));
    try destruct (directToggle (target c));
    try discriminate H; injection H as <-; apply Less; simpl; lia.
Qed.

Lemma in_flight_can_step i c s :
  calls s !! i = Some c -> inFlight c = true -> well_phased c = true ->
  is_Some (step directToggle i s).
Proof.
  intros L F W. unfold step. rewrite L. simpl.
  unfold inFlight in F. unfold well_phased in W. unfold toggle.
  destruct (at_phase c) as [| |snapshot| |[k|]|o|o], (op c);
    try discriminate F; try discriminate W; eauto.
Qed.

Lemma lock_owned_start rs en requests : lock_owned (start rs en requests).
Proof. intros b i H. discriminate H. Qed.

Lemma well_phased_start rs en requests :
  Forall (fun c => well_phased c = true) (calls (start rs en requests)).
Proof.
  unfold start. simpl. apply Forall_fmap, Forall_forall. intros r _. reflexivity.
Qed.

Lemma reachable_lock_owned rs en requests s :
  reachable directToggle (start rs en requests) s -> lock_owned s.
Proof.
  induction 1 as [|s i s' _ IH Hstep].
  - apply lock_owned_start.
  - eapply lock_owned_step; eauto.
Qed.

Lemma reachable_well_phased rs en requests s :
  reachable directToggle (start rs en requests) s ->
  Forall (fun c => well_phased c = true) (calls s).
Proof.
  induction 1 as [|s i s' _ IH Hstep].
  - apply well_phased_start.
  - eapply well_phased_step; eauto.
Qed.

(** The lock never deadlocks the process: while a call is unfinished,
    some call can take a step. *)
Lemma progress rs en requests s :
  reachable directToggle (start rs en requests) s ->
  ~ Forall (fun c => finished c = true) (calls s) ->
  exists i s', step directToggle i s = Some s'.
Proof.
  intros R Hnot.
  pose proof (reachable_lock_owned _ _ _ _ R) as Owned.
  pose proof (reachable_well_phased _ _ _ _ R) as Phased.
  destruct (list_find (fun c => inFlight c = true) (calls s)) as [[i c]|] eqn:Find.
  - apply list_find_Some in Find as (L & F & _).
    rewrite Forall_lookup in Phased.
    destruct (in_flight_can_step i c s L F (Phased i c L)) as [s' E]. eauto.
  - apply list_find_None in Find.
    apply not_Forall_Exists in Hnot; [|intros c; apply _].
    apply Exists_exists in Hnot as (c & Hc & Hfin).
    apply list_elem_of_In, list_elem_of_lookup in Hc as (i & L).
    pose proof Find as Idle.
    rewrite Forall_lookup in Find. specialize (Find i c L).
    assert (at_phase c = Waiting) as P.
    { apply not_true_is_false in Find, Hfin. revert Find Hfin.
      unfold inFlight, finished. destruct (at_phase c); simpl; congruence. }
    destruct (holder s (target c)) as [k|] eqn:Hh.
    + destruct (Owned _ _ Hh) as (c' & L' & _ & F').
      rewrite Forall_lookup in Idle. contradiction (Idle k c' L').
    + exists i. unfold step. rewrite L. simpl. rewrite P, Hh. eauto.
Qed.

(** From every reachable state some schedule brings every call to
    completion. *)
Lemma completes rs en requests s :
  reachable directToggle (start rs en requests) s ->
  exists schedule,
    Forall (fun c => finished c = true) (calls (run directToggle schedule s)).
Proof.
  remember (workload (calls s)) as n eqn:En. revert s En.
  induction n as [n IH] using lt_wf_ind. intros s En R.
  destruct (decide (Forall (fun c => finished c = true) (calls s))) as [D|D].
  - exists []. exact D.
  - destruct (progress _ _ _ _ R D) as (i & s' & Hstep).
    destruct (IH (workload (calls s'))) with (s := s') as [schedule Hs].
    + subst n. eapply step_decreases; eauto.
    + reflexivity.
    + eapply reach_step; eauto.
    + exists (i :: schedule). simpl. rewrite Hstep. exact Hs.
Qed.

Lemma fields_number (l : list RuleBody) : fields <$> number l = l.
Proof.
  apply list_eq. intros i. unfold number.
  rewrite list_lookup_fmap, list_lookup_imap. destruct (l !! i); reflexivity.
Qed.

(** C4: in every state the process can reach, two calls in flight
    against the same backend are the same call. Hence, when the requests
    are adds, the rule of every finished add is in the listing of its
    backend, whatever the other calls are doing; and once every call has
    finished, the listing of each backend has grown by one entry per
    request against it, shows every added rule and still shows the rules
    that were there. *)
Theorem serialized_no_lost_update (rs : FirewallBackend -> list RuleBody)
    (en : FirewallBackend -> bool) (requests : list (FirewallBackend * Operation))
    (s : system) :
  reachable directToggle (start rs en requests) s ->
  (forall i j ci cj,
      calls s !! i = Some ci -> calls s !! j = Some cj ->
      inFlight ci = true -> inFlight cj = true -> target ci = target cj -> i = j)
  /\ (Forall (fun r => isAdd (snd r) = true) requests ->
      (forall i c r,
          calls s !! i = Some c -> op c = OpAdd r -> finished c = true ->
          r ∈ fields <$> listing s (target c))
      /\ (Forall (fun c => finished c = true) (calls s) ->
          forall b,
            length (listing s b) = (length (rs b) + requested b requests)%nat
            /\ (forall r, (b, OpAdd r) ∈ requests -> r ∈ fields <$> listing s b)
            /\ (forall r, r ∈ rs b -> r ∈ fields <$> listing s b))).
Proof.
  intros R. split.
  - intros i j ci cj Li Lj Fi Fj E.
    pose proof (reachable_owns_lock _ _ _ _ R) as Own.
    pose proof (Own i ci Li Fi) as Hi. pose proof (Own j cj Lj Fj) as Hj.
    rewrite E in Hi. congruence.
  - intros Hadds.
    pose proof (reachable_same_requests _ _ _ _ R) as Same.
    destruct (reachable_data_invariant _ _ _ _ Hadds R) as (_ & Co & Ke & Pr).
    assert (forall i c r,
               calls s !! i = Some c -> op c = OpAdd r -> finished c = true ->
               r ∈ rules s (target c)) as Shown.
    { intros i c r L O Hfin. apply (Pr i c r L O).
      unfold finished in Hfin. unfold committed.
      destruct (at_phase c); try discriminate Hfin. reflexivity. }
    split.
    + intros i c r L O Hfin. unfold listing, listRules. simpl.
      rewrite fields_number. eapply Shown; eauto.
    + intros Hdone b. unfold listing, listRules. simpl. rewrite fields_number.
      split; [|split].
      * unfold number. rewrite length_imap, (Co b), <- Same.
        rewrite adds_finished; [reflexivity | exact Hdone |].
        rewrite Forall_lookup. intros i c L.
        eapply adds_only_requests; eauto.
      * intros r Hr. rewrite <- Same in Hr.
        apply list_elem_of_fmap in Hr as (c & E & Hc). injection E as -> O.
        apply list_elem_of_lookup in Hc as (i & L).
        rewrite Forall_lookup in Hdone.
        apply (Shown i c r L); [congruence | exact (Hdone i c L)].
      * intros r Hr. apply Ke, Hr.
Qed.

End WithToggle.

Lemma serialized_no_lost_update_witness :
  length (listing (run (fun _ => true) Samples.interleaving Samples.busy_start) ufw)
  = (2 + 2)%nat
  /\ (forall r, (ufw, OpAdd r) ∈ Samples.three_adds ->
        r ∈ fields <$> listing (run (fun _ => true) Samples.interleaving
                                    Samples.busy_start) ufw)
  /\ (forall r, r ∈ [Samples.allow_ssh; Samples.deny_telnet] ->
        r ∈ fields <$> listing (run (fun _ => true) Samples.interleaving
                                    Samples.busy_start) ufw).
Proof.
  apply (proj2 (proj2 (serialized_no_lost_update (fun _ => true)
                  (ruleset Samples.two_rules) (fun _ => true) Samples.three_adds
                  (run (fun _ => true) Samples.interleaving Samples.busy_start)
                  (run_reachable (fun _ => true) Samples.busy_start
                     Samples.interleaving Samples.busy_start
                     (reach_start (fun _ => true) Samples.busy_start)))
                ltac:(repeat constructor))).
  by_compute.
Defined.

(** The interleaving of the example, step by step at its end: both ufw
    adds are listed after the two rules that were there, and the
    nftables add is alone in its listing. *)
Example interleaving_result :
  rules (run (fun _ => true) Samples.interleaving Samples.busy_start) ufw
  = [Samples.allow_ssh; Samples.deny_telnet; Samples.allow_https; Samples.deny_telnet]
  /\ rules (run (fun _ => true) Samples.interleaving Samples.busy_start) nftables
     = [Samples.allow_ssh]
  /\ at_phase <$> calls (run (fun _ => true) Samples.interleaving Samples.busy_start)
     = [Done (Added "3"); Done (Added "1"); Done (Added "4")].
Proof. repeat split; vm_compute; reflexivity. Qed.

End CoordinatorFacts.

(** ** More of the Firewall page *)

Module FirewallVisit.
Import Http Firewall.





Lemma click_requests d c f s r :
  c ∈ controls s d -> r ∈ sent (click c f s).2 ->
  firewallApi.endpoint_of r = Some ufw
  /\ (url r = "/firewall/ufw/rules" -> meth r = POST ->
      exists p src, (("port", Js.Str p) ∈ body r /\ p <> "")
                    /\ (("from_ip", Js.Str src) ∈ body r /\ src <> "")).
Proof.
  intros _. destruct c as [b disabled| | | |ruleId|]; simpl.
  - destruct disabled; intros H; inversion H.
  - intros H. apply list_elem_of_singleton in H. subst r.
    split; [reflexivity | discriminate].
  - intros H. apply list_elem_of_singleton in H. subst r.
    split; [reflexivity | discriminate].
  - intros H. inversion H.
  - intros H. apply list_elem_of_singleton in H. subst r.
    split; [reflexivity | intros _; discriminate].
  - unfold AddRuleModal.handleSubmit.
    destruct (String.eqb (AddRuleModal.port f) "") eqn:E; simpl; intros H;
      [inversion H|].
    apply list_elem_of_singleton in H. subst r. split; [reflexivity|].
    intros _ _. apply String.eqb_neq in E.
    exists (AddRuleModal.port f),
      (if String.eqb (AddRuleModal.fromIp f) "" then "any" else AddRuleModal.fromIp f).
    simpl. split; [split; [by_elem | exact E]|].
    unfold Js.or. simpl. destruct (String.eqb (AddRuleModal.fromIp f) "") eqn:F; simpl.
    + split; [by_elem | discriminate].
    + split; [by_elem | apply String.eqb_neq, F].
Qed.

Lemma session_requests d steps s r :
  r ∈ sent (session d steps s).2 ->
  exists c f s0, c ∈ controls s0 d /\ r ∈ sent (click c f s0).2.
Proof.
  revert s. induction steps as [|[c f] rest IH]; intros s; simpl.
  - intros H. inversion H.
  - destruct (bool_decide (c ∈ controls s d)) eqn:E; [|apply IH].
    apply bool_decide_eq_true in E.
    destruct (click c f s) as [s1 es] eqn:C.
    specialize (IH s1). destruct (session d rest s1) as [s2 es'].
    simpl in *. unfold sent. rewrite omap_app, elem_of_app. intros [H|H].
    + exists c, f, s. rewrite C. split; [exact E | exact H].
    + apply IH, H.
Qed.

(** X2: every request sent during a visit of the page, deletes included,
    addresses the ufw endpoint, and every rule that is posted carries a port
    and a source that are not empty (a blank source is sent as any). *)
Theorem visit_requests (d : data) (steps : list (control * AddRuleModal.form))
    (r : request) :
  r ∈ sent (session d steps initial).2 ->
  firewallApi.endpoint_of r = Some ufw
  /\ (url r = "/firewall/ufw/rules" -> meth r = POST ->
      exists p src, (("port", Js.Str p) ∈ body r /\ p <> "")
                    /\ (("from_ip", Js.Str src) ∈ body r /\ src <> "")).
Proof.
  intros H. apply session_requests in H as (c & f & s0 & Hc & Hr).
  eapply click_requests; eauto.
Qed.

Lemma visit_requests_witness :
  firewallApi.endpoint_of Samples.https_request = Some ufw.
Proof.
  exact (proj1 (visit_requests Samples.ufw_page_data
                  [(AddRuleButton, Samples.https_form); (SubmitButton, Samples.https_form)]
                  Samples.https_request ltac:(by_compute))).
Defined.

(** X3: the delete button of a row sends DELETE /firewall/ufw/rules/ followed
    by the row's id, whichever listing the row belongs to; while a backend
    other than ufw is selected the rows are those of the iptables listing. *)
Theorem row_delete_addresses_ufw (s : state) (d : data) (c : control)
    (f : AddRuleModal.form) :
  c ∈ rulesTable s d ->
  (exists shown rule,
      rules s d = Some shown /\ rule ∈ shown
      /\ click c f s
         = (s, [Send (mkRequest DELETE
                        ("/firewall/ufw/rules/" +:+ Js.toString (Js.get rule "id")) [])]))
  /\ (selectedBackend s <> ufw -> rules s d = iptablesRules d).
Proof.
  intros H. split.
  - unfold rulesTable in H. destruct (rulesLoading d); [inversion H|].
    destruct (rules s d) as [shown|]; [|inversion H].
    apply list_elem_of_fmap in H as (rule & -> & Hr).
    exists shown, rule. repeat split. exact Hr.
  - intros N. unfold rules. rewrite decide_False by exact N. reflexivity.
Qed.

Lemma row_delete_addresses_ufw_witness :
  (exists shown rule,
      rules (mkState iptables false) Samples.iptables_page_data = Some shown
      /\ rule ∈ shown
      /\ click (DeleteButton (Js.Str "INPUT-3")) Samples.https_form (mkState iptables false)
         = (mkState iptables false,
            [Send (mkRequest DELETE
                     ("/firewall/ufw/rules/" +:+ Js.toString (Js.get rule "id")) [])]))
  /\ (selectedBackend (mkState iptables false) <> ufw ->
      rules (mkState iptables false) Samples.iptables_page_data
      = iptablesRules Samples.iptables_page_data).
Proof.
  apply (row_delete_addresses_ufw (mkState iptables false) Samples.iptables_page_data
           (DeleteButton (Js.Str "INPUT-3")) Samples.https_form).
  by_compute.
Defined.


Lemma toggle_rendered s d c :
  c ∈ controls s d -> c = EnableButton \/ c = DisableButton ->
  exists u, ufwStatus d = Some u /\ st_available u = true /\ selectedBackend s = ufw
            /\ c = (if st_enabled u then DisableButton else EnableButton).
Proof.
  intros Hc Hk.
  assert (c ∈ ufwControls s d) as H.
  { unfold controls in Hc. rewrite !elem_of_app in Hc. destruct Hc as [H|[H|[H|H]]].
    - apply list_elem_of_fmap in H as (b & -> & _). destruct Hk; discriminate.
    - exact H.
    - unfold rulesTable in H. destruct (rulesLoading d); [inversion H|].
      destruct (rules s d); [|inversion H].
      apply list_elem_of_fmap in H as (x & -> & _). destruct Hk; discriminate.
    - destruct (addRuleOpen s); [|inversion H].
      apply list_elem_of_singleton in H. subst c. destruct Hk; discriminate. }
  unfold ufwControls in H. destruct (ufwStatus d) as [u|]; [|inversion H].
  destruct (bool_decide (selectedBackend s = ufw)) eqn:B; simpl in H; [|inversion H].
  destruct (st_available u) eqn:A; [|inversion H].
  apply bool_decide_eq_true in B. exists u. repeat split; try assumption.
  apply elem_of_cons in H as [H|H]; [exact H|].
  apply list_elem_of_singleton in H. subst c. destruct Hk; discriminate.
Qed.

(** X16: the page offers Enable only while the status data report ufw as
    available and not enabled, and Disable only while they report it enabled,
    never both; so during a visit an enable request is sent only for a
    firewall reported disabled, and a disable request only for one reported
    enabled. *)
Theorem toggle_follows_status (d : data) :
  (forall s, EnableButton ∈ controls s d ->
     (exists u, ufwStatus d = Some u /\ st_available u = true /\ st_enabled u = false)
     /\ DisableButton ∉ controls s d)
  /\ (forall s, DisableButton ∈ controls s d ->
        (exists u, ufwStatus d = Some u /\ st_available u = true /\ st_enabled u = true)
        /\ EnableButton ∉ controls s d)
  /\ (forall steps,
        (firewallApi.enableUfw ∈ sent (session d steps initial).2 ->
         exists u, ufwStatus d = Some u /\ st_enabled u = false)
        /\ (firewallApi.disableUfw ∈ sent (session d steps initial).2 ->
            exists u, ufwStatus d = Some u /\ st_enabled u = true)).
Proof.
  split; [|split].
  - intros s H. destruct (toggle_rendered s d _ H) as (u & Hu & A & _ & E); [auto|].
    destruct (st_enabled u) eqn:En; [discriminate E|]. split; [eauto|].
    intros H'. destruct (toggle_rendered s d _ H') as (u' & Hu' & _ & _ & E'); [auto|].
    rewrite Hu in Hu'. injection Hu' as <-. rewrite En in E'. discriminate E'.
  - intros s H. destruct (toggle_rendered s d _ H) as (u & Hu & A & _ & E); [auto|].
    destruct (st_enabled u) eqn:En; [|discriminate E]. split; [eauto|].
    intros H'. destruct (toggle_rendered s d _ H') as (u' & Hu' & _ & _ & E'); [auto|].
    rewrite Hu in Hu'. injection Hu' as <-. rewrite En in E'. discriminate E'.
  - intros steps. split; intros H;
      apply session_requests in H as (c & f & s0 & Hc & Hr);
      destruct c as [b disabled| | | |ruleId|]; simpl in Hr.
    + destruct disabled; inversion Hr.
    + apply list_elem_of_singleton in Hr. discriminate Hr.
    + destruct (toggle_rendered s0 d _ Hc) as (u & Hu & _ & _ & E); [auto|].
      exists u. split; [exact Hu|]. destruct (st_enabled u); [discriminate E | reflexivity].
    + inversion Hr.
    + apply list_elem_of_singleton in Hr. discriminate Hr.
    + unfold AddRuleModal.handleSubmit in Hr.
      destruct (String.eqb (AddRuleModal.port f) ""); simpl in Hr; [inversion Hr|].
      apply list_elem_of_singleton in Hr. discriminate Hr.
    + destruct disabled; inversion Hr.
    + destruct (toggle_rendered s0 d _ Hc) as (u & Hu & _ & _ & E); [auto|].
      exists u. split; [exact Hu|]. destruct (st_enabled u); [reflexivity | discriminate E].
    + apply list_elem_of_singleton in Hr. discriminate Hr.
    + inversion Hr.
    + apply list_elem_of_singleton in Hr. discriminate Hr.
    + unfold AddRuleModal.handleSubmit in Hr.
      destruct (String.eqb (AddRuleModal.port f) ""); simpl in Hr; [inversion Hr|].
      apply list_elem_of_singleton in Hr. discriminate Hr.
Qed.

End FirewallVisit.

(** ** More of the Ports page *)

Module PortsMore.
Import Ports.

Lemma filter_split (P Q : PortInfo -> Prop) `{DP : !forall p, Decision (P p)}
    `{DQ : !forall p, Decision (Q p)} (l : list PortInfo) :
  (forall p, P p -> Q p -> False) ->
  (length (filter P l) + length (filter Q l) <= length l)%nat.
Proof.
  intros D. induction l as [|p l IH]; [reflexivity|].
  rewrite !filter_cons. destruct (decide (P p)) as [HP|HP], (decide (Q p)) as [HQ|HQ];
    simpl; try lia. exfalso. eauto.
Qed.

Lemma filter_cover (P Q : PortInfo -> Prop) `{DP : !forall p, Decision (P p)}
    `{DQ : !forall p, Decision (Q p)} (l : list PortInfo) :
  (forall p, P p -> Q p -> False) ->
  Forall (fun p => P p \/ Q p) l ->
  (length (filter P l) + length (filter Q l) = length l)%nat.
Proof.
  intros D H. induction H as [|p l Hp _ IH]; [reflexivity|].
  rewrite !filter_cons. destruct (decide (P p)) as [HP|HP], (decide (Q p)) as [HQ|HQ];
    simpl; try lia.
  - exfalso. eauto.
  - exfalso. tauto.
Qed.

(** X5: in the statistics of the Ports page the tcp and udp counts never
    add up to more than the total, and add up to it when every entry is tcp
    or udp; the public count never exceeds the total; and while the listing
    has not arrived all four numbers are 0. *)
Theorem stats_bounds (l : list PortInfo) :
  total (stats (Some l)) = length l
  /\ (tcp (stats (Some l)) + udp (stats (Some l)) <= total (stats (Some l)))%nat
  /\ (Forall (fun p => protocol p = "tcp" \/ protocol p = "udp") l ->
      (tcp (stats (Some l)) + udp (stats (Some l)))%nat = total (stats (Some l)))
  /\ (public (stats (Some l)) <= total (stats (Some l)))%nat
  /\ stats None = mkStats 0 0 0 0.
Proof.
  simpl. split; [reflexivity|]. split; [|split; [|split; [|reflexivity]]].
  - apply filter_split. intros p H1 H2. rewrite H1 in H2. discriminate H2.
  - apply filter_cover. intros p H1 H2. rewrite H1 in H2. discriminate H2.
  - apply length_filter.
Qed.

Import BlockPortModal.

Lemma edit_well_chosen interfaces cs s :
  well_chosen interfaces s -> well_chosen interfaces (edit interfaces cs s).
Proof.
  unfold edit. revert s. induction cs as [|c cs IH]; intros s H; simpl; [exact H|].
  apply IH. destruct H as [Hi Hp]. destruct c as [v|v]; simpl.
  - destruct (bool_decide (v ∈ interfaceOptions interfaces)) eqn:E; [|split; assumption].
    apply bool_decide_eq_true in E. split; assumption.
  - destruct (bool_decide (v ∈ protocolOptions)) eqn:E; [|split; assumption].
    apply bool_decide_eq_true in E. split; assumption.
Qed.

Lemma option_not_lo interfaces v :
  v ∈ interfaceOptions interfaces ->
  v = "all" \/ (v <> "lo" /\ v ∈ name <$> interfaces).
Proof.
  unfold interfaceOptions. intros H. apply elem_of_cons in H as [H|H]; [left; exact H|].
  right. apply list_elem_of_fmap in H as (i & -> & Hi).
  apply list_elem_of_In, filter_In in Hi as [Hi Hn].
  apply negb_true_iff, String.eqb_neq in Hn. split; [exact Hn|].
  apply list_elem_of_fmap. exists i. split; [reflexivity|]. apply list_elem_of_In, Hi.
Qed.

(** X6: the block request takes the port number from the listed entry and
    everything else from the two selectors of the modal: the protocol is tcp
    or udp, and the interface parameter is left out (all interfaces) or names
    an interface of the host other than lo. With the selectors untouched the
    request is for tcp on all interfaces, whatever protocol and interface the
    entry has. Without an entry nothing is sent. *)
Theorem block_request (interfaces : list NetworkInterface) (cs : list change)
    (p : PortInfo) :
  (exists proto iface,
      handleSubmit (Some p) (edit interfaces cs initial)
      = [portsApi.blockPort (port p) proto iface]
      /\ (proto = "tcp" \/ proto = "udp")
      /\ (iface = Js.Undefined
          \/ exists n, iface = Js.Str n /\ n <> "lo" /\ n ∈ name <$> interfaces))
  /\ handleSubmit (Some p) initial = [portsApi.blockPort (port p) "tcp" Js.Undefined]
  /\ handleSubmit None (edit interfaces cs initial) = [].
Proof.
  split; [|split; reflexivity].
  assert (well_chosen interfaces (edit interfaces cs initial)) as [Hi Hp].
  { apply edit_well_chosen. split; by_elem. }
  eexists _, _. split; [reflexivity|]. split.
  - unfold protocolOptions in Hp. apply elem_of_cons in Hp as [Hp|Hp]; [left; exact Hp|].
    apply list_elem_of_singleton in Hp. right. exact Hp.
  - destruct (String.eqb (selectedInterface (edit interfaces cs initial)) "all") eqn:E;
      simpl; [left; reflexivity|].
    right. apply String.eqb_neq in E. eexists. split; [reflexivity|].
    apply option_not_lo in Hi as [Hi|Hi]; [contradiction | exact Hi].
Qed.

Example block_dns_untouched :
  protocol Samples.dns_on_eth0 = "udp"
  /\ interface Samples.dns_on_eth0 = Some "eth0"
  /\ handleSubmit (Some Samples.dns_on_eth0) initial
     = [portsApi.mkCall (Http.mkRequest Http.POST "/ports/block" [])
          [("port", Js.Num 53); ("protocol", Js.Str "tcp"); ("interface", Js.Undefined)]].
Proof. repeat split. Qed.

Example block_dns_chosen :
  handleSubmit (Some Samples.dns_on_eth0)
    (edit Samples.host_interfaces
       [SetProtocol "udp"; SetSelectedInterface "lo"; SetSelectedInterface "eth0"] initial)
  = [portsApi.blockPort 53 "udp" (Js.Str "eth0")].
Proof. vm_compute. reflexivity. Qed.

End PortsMore.

(** ** The user form *)

Module UserModalFacts.
Import Http Users Users.UserModal.

Lemma data_password f :
  "password" ∈ (fst <$> data f) <-> f_password f <> "".
Proof.
  unfold data. destruct (String.eqb (f_password f) "") eqn:E.
  - apply String.eqb_eq in E. rewrite E. simpl. split; [|congruence].
    intros H. repeat (apply elem_of_cons in H as [H|H]; [discriminate H|]).
    inversion H.
  - apply String.eqb_neq in E. simpl. split; [intros _; exact E|].
    intros _. by_elem.
Qed.

(** X7: the user form sends nothing without a username. For a new user it
    posts to /users and always with a password; for an existing user it puts
    to /users/ followed by that user's id, and the body has a password
    property exactly when one was typed, so a blank password field leaves the
    password alone. *)
Theorem user_form_requests (user : option Users.user) (f : form) (r : request) :
  r ∈ requests (handleSubmit user f) ->
  f_username f <> ""
  /\ body r = data f
  /\ ("password" ∈ (fst <$> body r) <-> f_password f <> "")
  /\ match user with
     | None => meth r = POST /\ url r = "/users" /\ f_password f <> ""
     | Some u => meth r = PUT /\ url r = "/users/" +:+ Js.toString (id u)
     end.
Proof.
  unfold handleSubmit. destruct (String.eqb (f_username f) "") eqn:U; simpl.
  - intros H. inversion H.
  - apply String.eqb_neq in U. destruct user as [u|].
    + simpl. intros H. apply list_elem_of_singleton in H. subst r. simpl.
      split; [exact U|]. split; [reflexivity|]. split; [apply data_password|].
      split; reflexivity.
    + destruct (String.eqb (f_password f) "") eqn:P; simpl; intros H; [inversion H|].
      apply list_elem_of_singleton in H. subst r. simpl.
      split; [exact U|]. split; [reflexivity|]. split; [apply data_password|].
      split; [reflexivity|]. split; [reflexivity|]. apply String.eqb_neq, P.
Qed.

Lemma user_form_requests_witness :
  f_username Samples.rename_form <> ""
  /\ body (usersApi.update (Js.Num 2) (data Samples.rename_form)) = data Samples.rename_form
  /\ ("password" ∈ (fst <$> body (usersApi.update (Js.Num 2) (data Samples.rename_form)))
      <-> f_password Samples.rename_form <> "")
  /\ meth (usersApi.update (Js.Num 2) (data Samples.rename_form)) = PUT
     /\ url (usersApi.update (Js.Num 2) (data Samples.rename_form))
        = "/users/" +:+ Js.toString (id Samples.other_row).
Proof.
  apply (user_form_requests (Some Samples.other_row) Samples.rename_form
           (usersApi.update (Js.Num 2) (data Samples.rename_form))).
  by_elem.
Defined.

Example rename_keeps_password :
  requests (handleSubmit (Some Samples.other_row) Samples.rename_form)
  = [mkRequest PUT "/users/2"
       [("username", Js.Str "olga2"); ("email", Js.Str "olga@example.com");
        ("role", Js.Str "operator"); ("is_active", Js.Bool true)]].
Proof. vm_compute. reflexivity. Qed.

Example new_user_without_password :
  handleSubmit None (mkForm "olga" "" "" "operator" true)
  = [ToastError "Password is required for new users"].
Proof. reflexivity. Qed.

End UserModalFacts.

(** ** The layout *)

Module LayoutFacts.
Import Layout.

(** X8: for a user who is not an administrator every admin-only entry of
    the navigation is missing from the sidebar and the heading at its
    location falls back to Firewall Manager, yet the route itself is not
    guarded by role: once authenticated, the page at that location is
    rendered. *)
Theorem admin_pages_hidden_not_guarded (user : option authStore.User) (item : navItem) :
  item ∈ navigation -> adminOnly item = true -> isAdmin user = false ->
  (item ∉ filteredNav user)
  /\ heading user (href item) = "Firewall Manager"
  /\ exists page, App.App App.exactPath (href item) true = App.LayoutElement (Some page).
Proof.
  intros Hin Ha Hu. unfold navigation in Hin.
  repeat (apply elem_of_cons in Hin as [-> | Hin]; [try discriminate Ha|]).
  - split; [|split].
    + unfold filteredNav. rewrite Hu. by_compute.
    + unfold heading, filteredNav. rewrite Hu. reflexivity.
    + eexists. reflexivity.
  - split; [|split].
    + unfold filteredNav. rewrite Hu. by_compute.
    + unfold heading, filteredNav. rewrite Hu. reflexivity.
    + eexists. reflexivity.
  - inversion Hin.
Qed.

Lemma admin_pages_hidden_not_guarded_witness :
  (mkItem "Users" "/users" true ∉ filteredNav (Some Samples.operator_account))
  /\ heading (Some Samples.operator_account) "/users" = "Firewall Manager"
  /\ exists page, App.App App.exactPath "/users" true = App.LayoutElement (Some page).
Proof.
  apply (admin_pages_hidden_not_guarded (Some Samples.operator_account)
           (mkItem "Users" "/users" true)); [by_elem | reflexivity | reflexivity].
Defined.

Lemma current_absent (l : list navItem) pathname :
  pathname ∉ (href <$> l) ->
  List.filter snd ((fun item => (href item, String.eqb pathname (href item))) <$> l) = [].
Proof.
  induction l as [|i l IH]; [reflexivity|]. simpl. rewrite not_elem_of_cons.
  intros [H1 H2]. apply String.eqb_neq in H1. rewrite H1. apply IH, H2.
Qed.

Lemma current_at_most_one (l : list navItem) pathname :
  NoDup (href <$> l) ->
  (length (List.filter snd
             ((fun item => (href item, String.eqb pathname (href item))) <$> l)) <= 1)%nat.
Proof.
  induction l as [|i l IH]; [simpl; lia|]. simpl. intros ND.
  apply list.NoDup_cons in ND as [Hi Hl].
  destruct (String.eqb pathname (href i)) eqn:E; simpl.
  - apply String.eqb_eq in E. subst pathname. rewrite current_absent by exact Hi.
    simpl. lia.
  - apply IH, Hl.
Qed.

Lemma find_unique (l : list navItem) item pathname :
  NoDup (href <$> l) -> item ∈ l -> href item = pathname ->
  List.find (fun i => String.eqb (href i) pathname) l = Some item.
Proof.
  induction l as [|i l IH]; intros ND Hi Hh; [inversion Hi|].
  simpl in *. apply list.NoDup_cons in ND as [Hn ND].
  apply elem_of_cons in Hi as [-> | Hi].
  - rewrite Hh, String.eqb_refl. reflexivity.
  - destruct (String.eqb (href i) pathname) eqn:E.
    + apply String.eqb_eq in E. exfalso. apply Hn. rewrite E, <- Hh.
      apply list_elem_of_fmap. exists item. split; [reflexivity | exact Hi].
    + apply IH; assumption.
Qed.

Lemma find_absent (l : list navItem) pathname :
  pathname ∉ (href <$> l) ->
  List.find (fun i => String.eqb (href i) pathname) l = None.
Proof.
  induction l as [|i l IH]; [reflexivity|]. simpl. rewrite not_elem_of_cons.
  intros [H1 H2]. assert (String.eqb (href i) pathname = false) as ->.
  { apply String.eqb_neq. congruence. }
  apply IH, H2.
Qed.

(** X9: the sidebar shows the five general entries to everyone and the two
    admin-only entries to administrators only; at most one link is marked as
    current, and the heading is the name of the visible entry whose location
    is the current one, Firewall Manager when there is none. *)
Theorem sidebar_entries (user : option authStore.User) (pathname : string) :
  href <$> filteredNav user
  = ["/"; "/firewall"; "/network"; "/ports"; "/docker"]
    ++ (if isAdmin user then ["/users"; "/audit"] else [])
  /\ (length (List.filter snd (sidebar user pathname)) <= 1)%nat
  /\ (forall item, item ∈ filteredNav user -> href item = pathname ->
        heading user pathname = name item)
  /\ (pathname ∉ (href <$> filteredNav user) ->
      heading user pathname = "Firewall Manager"
      /\ List.filter snd (sidebar user pathname) = []).
Proof.
  assert (NoDup (href <$> filteredNav user)) as ND.
  { unfold filteredNav. destruct (isAdmin user); by_compute. }
  assert (Forall (fun item => name item <> "") (filteredNav user)) as NE.
  { unfold filteredNav. destruct (isAdmin user); by_compute. }
  split; [|split; [|split]].
  - unfold filteredNav. destruct (isAdmin user); reflexivity.
  - unfold sidebar. apply current_at_most_one, ND.
  - intros item Hi Hh. unfold heading.
    rewrite (find_unique _ item pathname ND Hi Hh).
    rewrite Forall_lookup in NE. apply list_elem_of_lookup in Hi as Hk.
    destruct Hk as [k Hk]. specialize (NE k item Hk).
    apply String.eqb_neq in NE. rewrite NE. reflexivity.
  - intros Hn. split.
    + unfold heading. rewrite (find_absent _ pathname Hn). reflexivity.
    + unfold sidebar. apply current_absent, Hn.
Qed.

End LayoutFacts.

(** ** Signing in and out *)

Module SessionFacts.
Import authStore.

Lemma login_returned srv username password w :
  (login srv username password w).2 = Returned ->
  exists access_token userData,
    (login srv username password w).1
    = mkWorld (mkAuth (Some access_token) (Some userData) true)
              (Some (bearer access_token)).
Proof.
  unfold login. destruct (post_login srv username password) as [tok|e]; [|discriminate].
  destruct (get_me srv _) as [u|e]; [|discriminate]. intros _. eauto.
Qed.

Lemma login_thrown srv username password w e :
  (login srv username password w).2 = Thrown e ->
  store (login srv username password w).1 = store w.
Proof.
  unfold login. destruct (post_login srv username password) as [tok|e0]; [|reflexivity].
  destruct (get_me srv _) as [u|e1]; [discriminate | reflexivity].
Qed.

Lemma navigate_iff srv detail username password w :
  Login.NavigateTo "/" ∈ (Login.handleSubmit srv detail username password w).2
  <-> username <> "" /\ password <> ""
      /\ (login srv username password w).2 = Returned.
Proof.
  unfold Login.handleSubmit.
  destruct (String.eqb username "") eqn:U; simpl.
  - apply String.eqb_eq in U. split.
    + intros H. apply list_elem_of_singleton in H. discriminate H.
    + intros [H _]. contradiction.
  - apply String.eqb_neq in U. destruct (String.eqb password "") eqn:P; simpl.
    + apply String.eqb_eq in P. split.
      * intros H. apply list_elem_of_singleton in H. discriminate H.
      * intros (_ & H & _). contradiction.
    + apply String.eqb_neq in P.
      destruct (login srv username password w) as [w' [|e]]; simpl; split.
      * intros _. repeat split; assumption.
      * intros _. by_elem.
      * intros H. repeat (apply elem_of_cons in H as [H|H]; [discriminate H|]).
        inversion H.
      * intros (_ & _ & H). discriminate H.
Qed.

(** X10: the login form calls the store only when both fields are filled
    in. It navigates to / exactly when [login] returned; the store is then
    authenticated and the application shows the dashboard there. When it
    does not navigate the store is what it was. The loading flag is never
    left set. *)
Theorem login_form (srv : server) (detail : Js.value) (username password : string)
    (w : world) :
  (Login.NavigateTo "/" ∈ (Login.handleSubmit srv detail username password w).2
   <-> username <> "" /\ password <> ""
       /\ (login srv username password w).2 = Returned)
  /\ (Login.NavigateTo "/" ∈ (Login.handleSubmit srv detail username password w).2 ->
      isAuthenticated (store (Login.handleSubmit srv detail username password w).1) = true
      /\ App.App App.exactPath "/"
           (isAuthenticated (store (Login.handleSubmit srv detail username password w).1))
         = App.LayoutElement (Some App.Dashboard))
  /\ (Login.NavigateTo "/" ∉ (Login.handleSubmit srv detail username password w).2 ->
      store (Login.handleSubmit srv detail username password w).1 = store w)
  /\ (username = "" \/ password = "" ->
      Login.handleSubmit srv detail username password w
      = (w, [Login.ToastError (Js.Str "Please enter username and password")]))
  /\ (forall before,
        Login.loading before (Login.handleSubmit srv detail username password w).2
        = (before && (String.eqb username "" || String.eqb password ""))%bool).
Proof.
  split; [apply navigate_iff|]. split; [|split; [|split]].
  - intros H. apply navigate_iff in H as (U & P & R).
    apply String.eqb_neq in U, P. unfold Login.handleSubmit. rewrite U, P. simpl.
    destruct (login_returned _ _ _ _ R) as (tok & usr & E).
    destruct (login srv username password w) as [w' c]. simpl in *. subst.
    split; reflexivity.
  - intros H. rewrite navigate_iff in H. unfold Login.handleSubmit.
    destruct (String.eqb username "") eqn:U; [reflexivity|].
    destruct (String.eqb password "") eqn:P; [reflexivity|]. simpl.
    apply String.eqb_neq in U, P.
    destruct (login srv username password w) as [w' [|e]] eqn:L; simpl.
    + exfalso. apply H. repeat split; assumption.
    + pose proof (login_thrown srv username password w e) as T.
      rewrite L in T. apply T. reflexivity.
  - intros [-> | ->]; unfold Login.handleSubmit; simpl; [reflexivity|].
    rewrite orb_true_r. reflexivity.
  - intros before. unfold Login.handleSubmit.
    destruct (String.eqb username "" || String.eqb password "")%bool; simpl.
    + rewrite andb_true_r. reflexivity.
    + rewrite andb_false_r.
      destruct (login srv username password w) as [w' [|e]]; reflexivity.
Qed.

(** X11: a page reload after a completed login, with a token that is not
    empty, restores the session as it was: the same token, user and
    authentication flag in the store and the same default Authorization
    header; a reload after a logout restores the signed-out session. *)
Theorem reload_restores_session (srv : server) (username password : string) (w : world)
    (access_token : string) :
  (login srv username password w).2 = Returned ->
  token (store (login srv username password w).1) = Some access_token ->
  access_token <> "" ->
  rehydrate (Some (partialize (store (login srv username password w).1)))
  = (login srv username password w).1
  /\ rehydrate (Some (partialize (store (logout (login srv username password w).1))))
     = logout (login srv username password w).1.
Proof.
  intros R T N. destruct (login_returned _ _ _ _ R) as (tok & usr & E).
  rewrite E in *. simpl in T. injection T as ->.
  split; [|reflexivity].
  unfold rehydrate, partialize, onRehydrateStorage. simpl.
  apply String.eqb_neq in N. rewrite N. reflexivity.
Qed.

Lemma reload_restores_session_witness :
  rehydrate (Some (partialize
                     (store (login Samples.good_server "admin" "secret"
                                   Samples.signed_out).1)))
  = (login Samples.good_server "admin" "secret" Samples.signed_out).1
  /\ rehydrate (Some (partialize
                        (store (logout (login Samples.good_server "admin" "secret"
                                              Samples.signed_out).1))))
     = logout (login Samples.good_server "admin" "secret" Samples.signed_out).1.
Proof.
  apply (reload_restores_session Samples.good_server "admin" "secret" Samples.signed_out
           "t0k3n"); [reflexivity | reflexivity | discriminate].
Defined.

(** A login interrupted after its first request leaves a default header
    that a reload does not bring back. *)
Example reload_after_half_login :
  authorization (login Samples.half_server "admin" "secret" Samples.signed_out).1
  = Some "Bearer t0k3n"
  /\ rehydrate (Some (partialize
                        (store (login Samples.half_server "admin" "secret"
                                      Samples.signed_out).1)))
     = Samples.signed_out.
Proof. split; reflexivity. Qed.

(** X12: when a session with a token is already stored, the user-info
    request of a new login goes out under the stored token, which the request
    interceptor puts in place of the new one; the store ends up with the new
    token and the user that the stored token identifies. *)
Theorem login_over_stored_session (srv : server) (username password : string) (w : world)
    (stored access_token : string) (userData : User) :
  token (store w) = Some stored -> stored <> "" ->
  post_login srv username password = Fulfilled access_token ->
  get_me srv (bearer stored) = Fulfilled userData ->
  login srv username password w
  = (mkWorld (mkAuth (Some access_token) (Some userData) true)
             (Some (bearer access_token)),
     Returned).
Proof.
  intros T N P G. unfold login, requestHeader. rewrite P. simpl. rewrite T.
  apply String.eqb_neq in N. rewrite N, G. reflexivity.
Qed.

Lemma login_over_stored_session_witness :
  login Samples.two_user_server "olga" "pw" Samples.admin_signed_in
  = (mkWorld (mkAuth (Some "n3w") (Some Samples.admin_account) true)
             (Some (bearer "n3w")),
     Returned).
Proof.
  apply (login_over_stored_session Samples.two_user_server "olga" "pw"
           Samples.admin_signed_in "0ld" "n3w" Samples.admin_account);
    [reflexivity | discriminate | reflexivity | reflexivity].
Defined.

(** The same login from a signed-out session gets the user of the new
    token. *)
Example login_from_signed_out :
  store (login Samples.two_user_server "olga" "pw" Samples.signed_out).1
  = mkAuth (Some "n3w") (Some Samples.operator_account) true.
Proof. reflexivity. Qed.

(** X13: signing out closes the whole protected area at once: after
    [logout], whatever the session was, every location that the login route
    does not match renders the redirect to /login, and the default
    Authorization header is gone; [setUser] alone never opens it. *)
Theorem logout_closes_protected_area (matchPath : string -> string -> bool)
    (pathname : string) (w : world) (u : User) :
  matchPath "/login" pathname = false ->
  App.App matchPath pathname (isAuthenticated (store (logout w)))
  = App.Navigate "/login" true
  /\ authorization (logout w) = None
  /\ App.App matchPath pathname (isAuthenticated (store (setUser u (logout w))))
     = App.Navigate "/login" true.
Proof.
  intros H. unfold App.App. rewrite H. repeat split.
Qed.

Lemma logout_closes_protected_area_witness :
  App.App App.exactPath "/users" (isAuthenticated (store (logout Samples.admin_signed_in)))
  = App.Navigate "/login" true
  /\ authorization (logout Samples.admin_signed_in) = None
  /\ App.App App.exactPath "/users"
       (isAuthenticated (store (setUser Samples.operator_account
                                        (logout Samples.admin_signed_in))))
     = App.Navigate "/login" true.
Proof.
  apply (logout_closes_protected_area App.exactPath "/users" Samples.admin_signed_in
           Samples.operator_account).
  reflexivity.
Defined.

End SessionFacts.

(** ** The response interceptor *)

Module apiFacts.
Import api.

Lemma prefix_app (sub s : string) :
  String.prefix sub s = true <-> exists rest, s = sub +:+ rest.
Proof.
  revert s. induction sub as [|c sub IH]; intros s.
  - split; [intros _; exists s; reflexivity | intros _; destruct s; reflexivity].
  - destruct s as [|d s]; simpl.
    + split; [discriminate | intros [rest H]; discriminate H].
    + destruct (Ascii.ascii_dec c d) as [->|N].
      * rewrite IH. split.
        -- intros [rest ->]. exists rest. reflexivity.
        -- intros [rest H]. exists rest. injection H as H. exact H.
      * split; [discriminate|]. intros [rest H]. injection H as H _. congruence.
Qed.

(** [Js.includes] is the substring test. *)
Lemma includes_app (sub s : string) :
  Js.includes sub s = true <-> exists before rest, s = before +:+ sub +:+ rest.
Proof.
  induction s as [|d s IH].
  - cbn [Js.includes]. rewrite orb_false_r, prefix_app. split.
    + intros [rest H]. exists "", rest. exact H.
    + intros (before & rest & H). destruct before as [|b before]; [|discriminate H].
      exists rest. exact H.
  - cbn [Js.includes]. rewrite orb_true_iff, prefix_app, IH. split.
    + intros [[rest H] | (before & rest & H)].
      * exists "", rest. exact H.
      * exists (String d before), rest. simpl. rewrite H. reflexivity.
    + intros (before & rest & H). destruct before as [|b before].
      * left. exists rest. exact H.
      * right. simpl in H. injection H as -> H. exists before, rest. exact H.
Qed.

(** X14: the response interceptor drops the persisted session and sends
    the browser to /login only for a 401 received while the path does not
    contain /login; in particular a 401 on the login page, as for a wrong
    password, does neither and shows no toast here. It shows at most one
    toast, and acts only on 401, 403 and statuses from 500 on; a failure
    without a response does nothing. *)
Theorem session_dropped_only_on_401 (status : option Z) (pathname : string) :
  (RemoveItem "auth-storage" ∈ onResponseError status pathname
   <-> status = Some 401 /\ Js.includes "/login" pathname = false)
  /\ (SetLocation "/login" ∈ onResponseError status pathname
      <-> status = Some 401 /\ Js.includes "/login" pathname = false)
  /\ (forall before rest,
        onResponseError (Some 401) (before +:+ "/login" +:+ rest) = [])
  /\ (length (toasts (onResponseError status pathname)) <= 1)%nat
  /\ (onResponseError status pathname <> [] ->
      exists n, status = Some n /\ (n = 401 \/ n = 403 \/ 500 <= n)).
Proof.
  assert (forall e, (e = RemoveItem "auth-storage" \/ e = SetLocation "/login") ->
            (e ∈ onResponseError status pathname
             <-> status = Some 401 /\ Js.includes "/login" pathname = false)) as Drop.
  { intros e He. unfold onResponseError.
    destruct (bool_decide (status = Some 401)) eqn:E.
    - apply bool_decide_eq_true in E.
      destruct (Js.includes "/login" pathname); simpl; split.
      + intros H. inversion H.
      + intros [_ H]. discriminate H.
      + intros _. split; [exact E | reflexivity].
      + intros _. destruct He as [-> | ->]; by_elem.
    - apply bool_decide_eq_false in E. split; [|intros [H _]; contradiction].
      intros H. exfalso.
      destruct (bool_decide (status = Some 403)).
      + apply list_elem_of_singleton in H. destruct He as [-> | ->]; discriminate H.
      + destruct status as [n|]; [|inversion H].
        destruct (500 <=? n); [|inversion H].
        apply list_elem_of_singleton in H. destruct He as [-> | ->]; discriminate H. }
  split; [apply Drop; left; reflexivity|].
  split; [apply Drop; right; reflexivity|].
  split; [|split].
  - intros before rest. unfold onResponseError. simpl.
    assert (Js.includes "/login" (before +:+ "/login" +:+ rest) = true) as ->.
    { apply includes_app. eauto. }
    reflexivity.
  - unfold onResponseError.
    destruct (bool_decide (status = Some 401)).
    + destruct (Js.includes "/login" pathname); simpl; lia.
    + destruct (bool_decide (status = Some 403)); [simpl; lia|].
      destruct status as [n|]; [|simpl; lia]. destruct (500 <=? n); simpl; lia.
  - unfold onResponseError.
    destruct (bool_decide (status = Some 401)) eqn:E1.
    { apply bool_decide_eq_true in E1. intros _. exists 401. split; [exact E1 | lia]. }
    destruct (bool_decide (status = Some 403)) eqn:E3.
    { apply bool_decide_eq_true in E3. intros _. exists 403. split; [exact E3 | lia]. }
    destruct status as [n|]; [|intros H; contradiction].
    destruct (500 <=? n) eqn:E5; [|intros H; contradiction].
    intros _. exists n. split; [reflexivity|]. apply Z.leb_le in E5. lia.
Qed.

Example wrong_password_on_login_page : onResponseError (Some 401) "/login" = [].
Proof. reflexivity. Qed.

Example expired_session_on_ports_page :
  onResponseError (Some 401) "/ports"
  = [RemoveItem "auth-storage"; SetLocation "/login";
     ToastError "Session expired. Please login again."].
Proof. reflexivity. Qed.

End apiFacts.

(** ** The Docker page *)

Module DockerFacts.
Import Docker.

Lemma stopped_not_running c : isStopped c = negb (isRunning c).
Proof. unfold isStopped, isRunning. rewrite negb_orb. reflexivity. Qed.

(** X15: the statistics of the Docker page split the containers in two:
    every container is counted as running or as stopped and never as both, so
    the two counts add up to the total; all three are 0 while the listing has
    not arrived. *)
Theorem running_and_stopped_partition (l : list container) :
  (running (stats (Some l)) + stopped (stats (Some l)))%nat = total (stats (Some l))
  /\ (forall c, isRunning c = negb (isStopped c))
  /\ stats None = mkStats 0 0 0.
Proof.
  split; [|split; [|reflexivity]].
  - simpl. induction l as [|c l IH]; [reflexivity|]. simpl.
    rewrite stopped_not_running. destruct (isRunning c); simpl; lia.
  - intros c. rewrite stopped_not_running, negb_involutive. reflexivity.
Qed.

End DockerFacts.

(** ** The audit page *)

Module AuditFacts.
Import Audit.

Lemma filter_le (P Q : string -> bool) (l : list string) :
  (forall a, P a = true -> Q a = true) ->
  (length (List.filter P l) <= length (List.filter Q l))%nat.
Proof.
  intros H. induction l as [|a l IH]; [reflexivity|]. simpl.
  destruct (P a) eqn:E.
  - rewrite (H a E). simpl. lia.
  - destruct (Q a); simpl; lia.
Qed.

Lemma filter_same (P Q : string -> bool) (l : list string) :
  (forall a, P a = Q a) -> List.filter P l = List.filter Q l.
Proof.
  intros H. induction l as [|a l IH]; [reflexivity|]. simpl. rewrite H, IH. reflexivity.
Qed.

(** X17: in the activity summary the number of create actions is the
    number of events drawn in green, while the numbers of delete and update
    actions can be larger than the numbers of events drawn in red and in
    yellow: an event whose action matches several groups of words is counted
    in each of them and drawn in the colour of the first. *)
Theorem summary_and_colours (logs : list string) :
  createActions (summary logs) = drawn "text-green-500 bg-green-500/20" logs
  /\ (drawn "text-red-500 bg-red-500/20" logs <= deleteActions (summary logs))%nat
  /\ (drawn "text-yellow-500 bg-yellow-500/20" logs <= updateActions (summary logs))%nat
  /\ (createActions (summary logs) <= totalEvents (summary logs))%nat.
Proof.
  unfold drawn, summary, getActionColor. simpl. split; [|split; [|split]].
  - f_equal. apply filter_same. intros a.
    destruct (Js.includes "create" a || Js.includes "add" a
              || Js.includes "enable" a)%bool; [reflexivity|].
    destruct (Js.includes "delete" a || Js.includes "remove" a
              || Js.includes "disable" a)%bool; [reflexivity|].
    destruct (Js.includes "update" a || Js.includes "modify" a)%bool; [reflexivity|].
    destruct (Js.includes "login" a || Js.includes "logout" a)%bool; reflexivity.
  - apply filter_le. intros a.
    destruct (Js.includes "create" a || Js.includes "add" a
              || Js.includes "enable" a)%bool; [discriminate|].
    destruct (Js.includes "delete" a || Js.includes "remove" a
              || Js.includes "disable" a)%bool; [reflexivity|].
    destruct (Js.includes "update" a || Js.includes "modify" a)%bool; [discriminate|].
    destruct (Js.includes "login" a || Js.includes "logout" a)%bool; discriminate.
  - apply filter_le. intros a.
    destruct (Js.includes "create" a || Js.includes "add" a
              || Js.includes "enable" a)%bool; [discriminate|].
    destruct (Js.includes "delete" a || Js.includes "remove" a
              || Js.includes "disable" a)%bool; [discriminate|].
    destruct (Js.includes "update" a || Js.includes "modify" a)%bool; [reflexivity|].
    destruct (Js.includes "login" a || Js.includes "logout" a)%bool; discriminate.
  - apply List.filter_length_le.
Qed.

(** An update of an address matches the word add: it is drawn in green
    and counted as a create action and as an update action. *)
Example update_address_counted_twice :
  getActionColor "update_address" = "text-green-500 bg-green-500/20"
  /\ summary ["update_address"] = mkSummary 1 1 1 0.
Proof. split; vm_compute; reflexivity. Qed.

End AuditFacts.
